(** * CareTag: session-gated record access

    A shallow embedding of the access-control core of the CareTag
    application:

    - the [access_sessions] table, the [has_active_session] predicate and
      the row-level policies of the sensitive tables
      (supabase/migrations/20260202053819_*.sql);
    - the role registry: [handle_new_user], [promote_to_admin],
      [demote_from_admin] (supabase/migrations/20260204104315_*.sql);
    - the client-side session lifecycle of the [useAccessSession] hook
      (active-session query, [startSession], [endSession]);
    - tag resolution, [processScannedId] of pages/ScanCareTag.tsx;
    - the audit entries of components/admin/DoctorVerificationPanel.tsx.

    Tables are lists of rows in insertion order.  UUIDs and text are
    strings, timestamps are integers (milliseconds), SQL [NULL] and
    JavaScript [null]/[undefined] are [None].  Every operation takes the
    database it runs against and returns the database it leaves behind;
    clock readings and generated UUIDs are explicit arguments.  A handler
    of the client sends its requests to the database one by one: the
    handlers are given as functions, which run their requests without
    interruption, and the step relation has the single requests as
    well, so that the states it reaches include those of interleaved
    handlers. *)

From Stdlib Require Import List String Ascii ZArith Bool Lia Arith.
From Stdlib Require DecimalString Nnat.
Import ListNotations.
Local Open Scope string_scope.
Local Open Scope Z_scope.
Local Open Scope list_scope.

(** ** Schema *)

Definition uuid := string.
Definition timestamp := Z.

(** [app_role], the enum behind ['doctor'::app_role] and ['admin'::app_role]. *)
Inductive app_role := doctor | admin.

(** [status TEXT CHECK (status IN ('active', 'completed', 'expired'))]. *)
Inductive session_status := active | completed | expired.

Definition app_role_eqb (a b : app_role) : bool :=
  match a, b with
  | doctor, doctor | admin, admin => true
  | _, _ => false
  end.

Definition session_status_eqb (a b : session_status) : bool :=
  match a, b with
  | active, active | completed, completed | expired, expired => true
  | _, _ => false
  end.

(** A row of [public.access_sessions]. *)
Record AccessSession := mkSession {
  id : uuid;
  doctor_id : uuid;
  patient_id : uuid;
  started_at : timestamp;
  ended_at : option timestamp;
  status : session_status;
  notes : option string;
  created_at : timestamp
}.

(** A row of [public.user_roles]. *)
Record UserRole := mkUserRole {
  user_id : uuid;
  role : app_role
}.

(** A row of [public.profiles]: the columns [handle_new_user] writes and
    the column the verification panel updates. *)
Record Profile := mkProfile {
  profile_id : uuid;
  full_name : option string;
  email : option string;
  verification_status : option string
}.

(** Values stored in the [details] object of an audit entry. A field
    whose value is [undefined] is left out by the client and is [None]
    here. *)
Inductive jsonb_value :=
| JUuid (u : option uuid)
| JTimestamp (t : timestamp)
| JText (s : option string).

(** A row of [public.audit_logs]. *)
Record AuditLog := mkAuditLog {
  audit_user_id : option uuid;
  action : string;
  entity_type : string;
  entity_id : uuid;
  details : list (string * jsonb_value)
}.

(** The columns of [public.patients] the scan page fills in
    ([generateRandomPatient]). *)
Record PatientData := mkPatientData {
  pat_full_name : string;
  caretag_id : string;
  date_of_birth : string;
  gender : string;
  blood_group : string;
  phone : string;
  pat_email : string
}.

(** A row of [public.patients]: the generated key and the data. *)
Record Patient := mkPatient {
  pat_id : uuid;
  pat_data : PatientData
}.

Record database := mkDb {
  access_sessions : list AccessSession;
  user_roles : list UserRole;
  profiles : list Profile;
  audit_logs : list AuditLog;
  patients : list Patient
}.

Definition with_sessions (db : database) (l : list AccessSession) : database :=
  mkDb l (user_roles db) (profiles db) (audit_logs db) (patients db).

Definition with_roles (db : database) (l : list UserRole) : database :=
  mkDb (access_sessions db) l (profiles db) (audit_logs db) (patients db).

Definition with_profiles (db : database) (l : list Profile) : database :=
  mkDb (access_sessions db) (user_roles db) l (audit_logs db) (patients db).

Definition with_audit (db : database) (l : list AuditLog) : database :=
  mkDb (access_sessions db) (user_roles db) (profiles db) l (patients db).

Definition with_patients (db : database) (l : list Patient) : database :=
  mkDb (access_sessions db) (user_roles db) (profiles db) (audit_logs db) l.

(** ** Errors *)

(** What a statement or a handler can fail with: the two exceptions the
    role functions raise (kept with the message of the source), the
    client's own [Error('Not authenticated')], and the rejections of the
    database. *)
Inductive error :=
| RaiseException (msg : string)
| NotAuthenticated
| RlsViolation
| UniqueViolation
| ForeignKeyViolation
| MultipleRows.

Inductive result (A : Type) :=
| Ok (a : A)
| Err (e : error).
Arguments Ok {A} a.
Arguments Err {A} e.

(** ** Predicates of the policies *)

(** [x = auth.uid()]: never true when nobody is signed in. *)
Definition is_uid (x : uuid) (auth_uid : option uuid) : bool :=
  match auth_uid with
  | Some u => String.eqb x u
  | None => false
  end.

(** Modelled from the spec: [has_role] is declared by a migration that is
    not among the sources; the policy boundary of the spec describes it as
    the predicate [hasRole(user, role)] over the role registry, here the
    [user_roles] rows the role functions write. *)
Definition has_role (db : database) (_user_id : option uuid) (_role : app_role) : bool :=
  existsb (fun r => is_uid (user_id r) _user_id && app_role_eqb (role r) _role)
          (user_roles db).

(** The row condition of [has_active_session]:
    [status = 'active' AND (ended_at IS NULL OR ended_at > now())]. *)
Definition session_live (now : timestamp) (s : AccessSession) : bool :=
  session_status_eqb (status s) active
  && match ended_at s with
     | None => true
     | Some e => now <? e
     end.

(** [public.has_active_session(_doctor_id, _patient_id)]. *)
Definition has_active_session (db : database) (now : timestamp)
    (_doctor_id : option uuid) (_patient_id : uuid) : bool :=
  existsb (fun s => is_uid (doctor_id s) _doctor_id
                    && String.eqb (patient_id s) _patient_id
                    && session_live now s)
          (access_sessions db).

(** The five session-gated tables. *)
Inductive sensitive_table :=
| medical_records | vitals | prescriptions | lab_results | emergency_records.

(** The columns of a sensitive row the policies read. [row_doctor_id] is
    [None] for a row without a doctor. *)
Record SensitiveRow := mkRow {
  row_patient_id : uuid;
  row_doctor_id : option uuid
}.

(** [doctor_id = auth.uid()] on a sensitive row. *)
Definition row_owned_by (r : SensitiveRow) (auth_uid : option uuid) : bool :=
  match row_doctor_id r with
  | Some d => is_uid d auth_uid
  | None => false
  end.

(** The [FOR SELECT] policy of each sensitive table; the five [USING]
    expressions are the same text. These and the write policies below
    are the policies this migration creates; policies of the migrations
    that are not among the sources are not modelled. *)
Definition select_policy (t : sensitive_table) (db : database) (now : timestamp)
    (auth_uid : option uuid) (r : SensitiveRow) : bool :=
  match t with
  | medical_records =>
      has_role db auth_uid admin
      || (has_role db auth_uid doctor && has_active_session db now auth_uid (row_patient_id r))
  | vitals =>
      has_role db auth_uid admin
      || (has_role db auth_uid doctor && has_active_session db now auth_uid (row_patient_id r))
  | prescriptions =>
      has_role db auth_uid admin
      || (has_role db auth_uid doctor && has_active_session db now auth_uid (row_patient_id r))
  | lab_results =>
      has_role db auth_uid admin
      || (has_role db auth_uid doctor && has_active_session db now auth_uid (row_patient_id r))
  | emergency_records =>
      has_role db auth_uid admin
      || (has_role db auth_uid doctor && has_active_session db now auth_uid (row_patient_id r))
  end.

(** The [FOR INSERT] and [FOR UPDATE] policies the migration creates, one
    constructor per [CREATE POLICY]. *)
Inductive write_policy :=
| update_medical_records
| insert_medical_records
| insert_vitals
| insert_prescriptions
| update_prescriptions
| insert_lab_results
| update_lab_results
| insert_emergency_records
| update_emergency_records.

Definition policy_table (p : write_policy) : sensitive_table :=
  match p with
  | update_medical_records | insert_medical_records => medical_records
  | insert_vitals => vitals
  | insert_prescriptions | update_prescriptions => prescriptions
  | insert_lab_results | update_lab_results => lab_results
  | insert_emergency_records | update_emergency_records => emergency_records
  end.

(** The command of each. *)
Definition is_update (p : write_policy) : bool :=
  match p with
  | update_medical_records | update_prescriptions | update_lab_results
  | update_emergency_records => true
  | _ => false
  end.

(** The [WITH CHECK] (insert) or [USING] (update) expression of each. *)
Definition policy_expression (p : write_policy) (db : database) (now : timestamp)
    (auth_uid : option uuid) (r : SensitiveRow) : bool :=
  match p with
  | update_medical_records =>
      row_owned_by r auth_uid
      && has_active_session db now auth_uid (row_patient_id r)
  | insert_medical_records =>
      has_role db auth_uid doctor
      && row_owned_by r auth_uid
      && has_active_session db now auth_uid (row_patient_id r)
  | insert_vitals =>
      has_role db auth_uid doctor
      && has_active_session db now auth_uid (row_patient_id r)
  | insert_prescriptions =>
      has_role db auth_uid doctor
      && row_owned_by r auth_uid
      && has_active_session db now auth_uid (row_patient_id r)
  | update_prescriptions =>
      row_owned_by r auth_uid
      && has_active_session db now auth_uid (row_patient_id r)
  | insert_lab_results =>
      has_role db auth_uid doctor
      && has_active_session db now auth_uid (row_patient_id r)
  | update_lab_results =>
      has_role db auth_uid doctor
      && has_active_session db now auth_uid (row_patient_id r)
  | insert_emergency_records =>
      has_role db auth_uid doctor
      && has_active_session db now auth_uid (row_patient_id r)
  | update_emergency_records =>
      has_role db auth_uid doctor
      && has_active_session db now auth_uid (row_patient_id r)
  end.

(** Whether the database lets the caller write the row [r] under the
    policy [p]. An [INSERT] passes when the [WITH CHECK] expression holds
    of the new row. An [UPDATE] reaches a stored row only when the row
    passes the [USING] expression and, since the statement names the row
    in its [WHERE] clause, the [FOR SELECT] policy of the table as well.
    None of the update policies has a [WITH CHECK] clause, so the
    [USING] expression is applied to the updated row too; the policies
    read [patient_id] and [doctor_id] only, and [r] stands for a row
    whose two columns the update leaves as they are. *)
Definition write_allowed (p : write_policy) (db : database) (now : timestamp)
    (auth_uid : option uuid) (r : SensitiveRow) : bool :=
  policy_expression p db now auth_uid r
  && (if is_update p then select_policy (policy_table p) db now auth_uid r else true).



(** The usable-session condition in the words of the data model: status is
    active and the end timestamp is unset or in the future. *)
Definition Usable (now : timestamp) (s : AccessSession) : Prop :=
  status s = active /\ (ended_at s = None \/ exists e, ended_at s = Some e /\ now < e).

(** ** Role registry (migration 20260204104315) *)

(** The columns of the new [auth.users] row the trigger reads.
    [raw_user_meta_data] is the signup payload, a JSON object with text
    fields. *)
Record NewUser := mkNewUser {
  new_id : uuid;
  new_email : option string;
  raw_user_meta_data : list (string * string)
}.

(** [obj ->> key]: the text of the field, [NULL] when it is absent. *)
Fixpoint json_get_text (obj : list (string * string)) (key : string) : option string :=
  match obj with
  | [] => None
  | (k, v) :: rest => if String.eqb k key then Some v else json_get_text rest key
  end.

Definition COALESCE {A} (a b : option A) : option A :=
  match a with
  | Some _ => a
  | None => b
  end.

(** [public.handle_new_user()], the trigger on account creation. The
    constraints of [profiles] and [user_roles] are declared by migrations
    that are not among the sources; both inserts are taken to succeed.
    The insert does not name [verification_status]; the column default is
    not among the sources either and is [None] here. *)
Definition handle_new_user (db : database) (NEW : NewUser) : database :=
  let db1 :=
    with_profiles db
      (profiles db ++
       [mkProfile (new_id NEW)
          (COALESCE (json_get_text (raw_user_meta_data NEW) "full_name") (new_email NEW))
          (new_email NEW) None]) in
  with_roles db1 (user_roles db1 ++ [mkUserRole (new_id NEW) doctor]).

Definition msg_promote_forbidden : string := "Only admins can promote users to admin role".
Definition msg_demote_forbidden : string := "Only admins can demote users".
Definition msg_demote_self : string := "Cannot demote yourself".

(** [UPDATE public.user_roles SET role = 'admin' WHERE user_id = _user_id]. *)
Definition set_admin (_user_id : uuid) (r : UserRole) : UserRole :=
  if String.eqb (user_id r) _user_id then mkUserRole (user_id r) admin else r.

(** [FOUND] after that update: some row matched. *)
Definition role_row_found (db : database) (_user_id : uuid) : bool :=
  existsb (fun r => String.eqb (user_id r) _user_id) (user_roles db).

(** [public.promote_to_admin(_user_id)]. A raised exception aborts the
    call and leaves the database as it was. *)
Definition promote_to_admin (db : database) (auth_uid : option uuid)
    (_user_id : uuid) (now : timestamp) : database * result unit :=
  if negb (has_role db auth_uid admin) then
    (db, Err (RaiseException msg_promote_forbidden))
  else
    let updated := map (set_admin _user_id) (user_roles db) in
    let roles :=
      if role_row_found db _user_id then updated
      else updated ++ [mkUserRole _user_id admin] in
    let db1 := with_roles db roles in
    (with_audit db1
       (audit_logs db1 ++
        [mkAuditLog auth_uid "PROMOTE_TO_ADMIN" "user_roles" _user_id
           [("promoted_user_id", JUuid (Some _user_id));
            ("promoted_by", JUuid auth_uid);
            ("promoted_at", JTimestamp now)]]),
     Ok tt).

(** [UPDATE public.user_roles SET role = 'doctor'
     WHERE user_id = _user_id AND role = 'admin']. *)
Definition set_doctor (_user_id : uuid) (r : UserRole) : UserRole :=
  if String.eqb (user_id r) _user_id && app_role_eqb (role r) admin
  then mkUserRole (user_id r) doctor
  else r.

(** The audit row of a demotion. *)
Definition demotion_entry (auth_uid : option uuid) (_user_id : uuid)
    (now : timestamp) : AuditLog :=
  mkAuditLog auth_uid "DEMOTE_FROM_ADMIN" "user_roles" _user_id
    [("demoted_user_id", JUuid (Some _user_id));
     ("demoted_by", JUuid auth_uid);
     ("demoted_at", JTimestamp now)].

(** [public.demote_from_admin(_user_id)]. *)
Definition demote_from_admin (db : database) (auth_uid : option uuid)
    (_user_id : uuid) (now : timestamp) : database * result unit :=
  if negb (has_role db auth_uid admin) then
    (db, Err (RaiseException msg_demote_forbidden))
  else if is_uid _user_id auth_uid then
    (db, Err (RaiseException msg_demote_self))
  else
    let db1 := with_roles db (map (set_doctor _user_id) (user_roles db)) in
    (with_audit db1 (audit_logs db1 ++ [demotion_entry auth_uid _user_id now]),
     Ok tt).

(** The roles the registry stores for a user. *)
Definition roles_of (db : database) (u : uuid) : list app_role :=
  map role (filter (fun r => String.eqb (user_id r) u) (user_roles db)).

(** ** Session lifecycle (the [useAccessSession] hook) *)

(** JavaScript truthiness of an optional string: [null], [undefined] and
    the empty string are falsy. *)
Definition truthy (o : option string) : bool :=
  match o with
  | Some s => negb (String.eqb s "")
  | None => false
  end.

(** [x || null]. *)
Definition or_null (o : option string) : option string :=
  if truthy o then o else None.

(** Row-level policies of [access_sessions]. *)
Definition rls_select_session (db : database) (auth_uid : option uuid)
    (s : AccessSession) : bool :=
  is_uid (doctor_id s) auth_uid || has_role db auth_uid admin.

Definition rls_insert_session (db : database) (auth_uid : option uuid)
    (s : AccessSession) : bool :=
  is_uid (doctor_id s) auth_uid && has_role db auth_uid doctor.

(** The [FOR UPDATE] policy. An update that names the row in its
    [WHERE] clause must pass the [FOR SELECT] policies as well; every
    row that passes this one passes them. *)
Definition rls_update_session (auth_uid : option uuid) (s : AccessSession) : bool :=
  is_uid (doctor_id s) auth_uid.

(** [.maybeSingle()]: no row is [null], one row is that row, more is an
    error. *)
Definition maybeSingle {A} (rows : list A) : result (option A) :=
  match rows with
  | [] => Ok None
  | [x] => Ok (Some x)
  | _ => Err MultipleRows
  end.

(** The filter of the active-session query:
    [doctor_id = user.id], [patient_id = patientId], [status = 'active'],
    [ended_at IS NULL]. *)
Definition active_query_filter (uid patientId : uuid) (s : AccessSession) : bool :=
  String.eqb (doctor_id s) uid
  && String.eqb (patient_id s) patientId
  && session_status_eqb (status s) active
  && match ended_at s with None => true | Some _ => false end.

(** [queryFn] of the ['access-session'] query. *)
Definition activeSessionQuery (db : database) (user patientId : option uuid)
    : result (option AccessSession) :=
  if negb (truthy patientId) || negb (truthy user) then Ok None
  else
    match user, patientId with
    | Some uid, Some pid =>
        maybeSingle
          (filter (active_query_filter uid pid)
             (filter (rls_select_session db user) (access_sessions db)))
    | _, _ => Ok None
    end.

(** [hasActiveSession: !!activeSession]. *)
Definition hasActiveSession (db : database) (user patientId : option uuid) : bool :=
  match activeSessionQuery db user patientId with
  | Ok (Some _) => true
  | _ => false
  end.

(** [queryFn] of the ['active-sessions'] query, without the patient join
    and the ordering. *)
Definition activeSessionsQuery (db : database) (user : option uuid) : list AccessSession :=
  if negb (truthy user) then []
  else
    match user with
    | Some uid =>
        filter (fun s => String.eqb (doctor_id s) uid
                         && session_status_eqb (status s) active
                         && match ended_at s with None => true | Some _ => false end)
          (filter (rls_select_session db user) (access_sessions db))
    | None => []
    end.

(** The first statement of [startSession]:
    [update({status: 'completed', ended_at: now}).eq('doctor_id', uid).eq('status', 'active')]. *)
Definition close_if_active (auth_uid : option uuid) (uid : uuid) (now : timestamp)
    (s : AccessSession) : AccessSession :=
  if rls_update_session auth_uid s
     && String.eqb (doctor_id s) uid
     && session_status_eqb (status s) active
  then mkSession (id s) (doctor_id s) (patient_id s) (started_at s)
         (Some now) completed (notes s) (created_at s)
  else s.

(** The row [insert({doctor_id, patient_id, status: 'active'})] asks for;
    the other columns take their defaults. *)
Definition new_session (new_uuid uid patientId : uuid) (db_now : timestamp) : AccessSession :=
  mkSession new_uuid uid patientId db_now None active None db_now.

(** The checks of that insert: the insert policy, the primary key and the
    foreign key to [patients]. The index on the active rows of a doctor,
    [idx_access_sessions_active], is not a unique index and rejects
    nothing. The row passes the select policies, which the [RETURNING]
    of [.select()] asks for, whenever it passes the insert policy. *)
Definition insert_session (db : database) (auth_uid : option uuid)
    (s : AccessSession) : database * result AccessSession :=
  if negb (rls_insert_session db auth_uid s) then (db, Err RlsViolation)
  else if existsb (fun s' => String.eqb (id s') (id s)) (access_sessions db)
  then (db, Err UniqueViolation)
  else if negb (existsb (fun p => String.eqb (pat_id p) (patient_id s)) (patients db))
  then (db, Err ForeignKeyViolation)
  else (with_sessions db (access_sessions db ++ [s]), Ok s).

(** [mutationFn] of [startSessionMutation]. [now] is the client clock,
    [db_now] the database clock and [new_uuid] the generated key. The
    result of the first statement is not looked at; a failed insert
    leaves its effect in place. *)
Definition startSession (db : database) (user : option uuid) (patientId : uuid)
    (now db_now : timestamp) (new_uuid : uuid) : database * result AccessSession :=
  if negb (truthy user) then (db, Err NotAuthenticated)
  else
    match user with
    | Some uid =>
        let db1 :=
          with_sessions db (map (close_if_active user uid now) (access_sessions db)) in
        insert_session db1 user (new_session new_uuid uid patientId db_now)
    | None => (db, Err NotAuthenticated)
    end.

(** The two requests of [startSession] one by one, as the database
    receives them: the hook sends the update and then the insert, with
    no transaction around them, so requests of other calls can arrive in
    between. *)
Definition closeActiveSessions (db : database) (uid : uuid) (now : timestamp) : database :=
  with_sessions db (map (close_if_active (Some uid) uid now) (access_sessions db)).

Definition insertSession (db : database) (uid patientId : uuid) (db_now : timestamp)
    (new_uuid : uuid) : database * result AccessSession :=
  insert_session db (Some uid) (new_session new_uuid uid patientId db_now).

(** Two calls of [startSession] by one doctor (two tabs, or two scans in
    a row) whose requests reach the database in the order: update of the
    first, update of the second, insert of the first, insert of the
    second. The result holds what each call returns. *)
Definition startSession_overlapped (db : database) (uid : uuid)
    (patientId1 : uuid) (now1 db_now1 : timestamp) (new_uuid1 : uuid)
    (patientId2 : uuid) (now2 db_now2 : timestamp) (new_uuid2 : uuid)
    : database * (result AccessSession * result AccessSession) :=
  let db1 := closeActiveSessions db uid now1 in
  let db2 := closeActiveSessions db1 uid now2 in
  let first := insertSession db2 uid patientId1 db_now1 new_uuid1 in
  let second := insertSession (fst first) uid patientId2 db_now2 new_uuid2 in
  (fst second, (snd first, snd second)).

(** The update of [endSession] on one row:
    [update({status: 'completed', ended_at: now, notes: notes || null}).eq('id', sessionId)]. *)
Definition end_if_id (auth_uid : option uuid) (sessionId : uuid) (notes_arg : option string)
    (now : timestamp) (s : AccessSession) : AccessSession :=
  if rls_update_session auth_uid s && String.eqb (id s) sessionId
  then mkSession (id s) (doctor_id s) (patient_id s) (started_at s)
         (Some now) completed (or_null notes_arg) (created_at s)
  else s.

(** [mutationFn] of [endSessionMutation]. The update cannot be rejected:
    it matches any number of rows and writes an allowed status. *)
Definition endSession (db : database) (auth_uid : option uuid) (sessionId : uuid)
    (notes_arg : option string) (now : timestamp) : database * result unit :=
  (with_sessions db (map (end_if_id auth_uid sessionId notes_arg now) (access_sessions db)),
   Ok tt).

(** ** Doctor verification (components/admin/DoctorVerificationPanel.tsx) *)

(** [update({verification_status: status}).eq('id', doctorId)] on one
    row. *)
Definition set_verification_status (doctorId : uuid) (status_arg : string)
    (p : Profile) : Profile :=
  if String.eqb (profile_id p) doctorId
  then mkProfile (profile_id p) (full_name p) (email p) (Some status_arg)
  else p.

(** The entry the panel writes to [audit_logs] from the client. *)
Definition verification_entry (auth_uid : option uuid) (doctorId : uuid)
    (status_arg : string) (reason : option string) : AuditLog :=
  mkAuditLog auth_uid ("doctor_verification_" ++ status_arg)%string "profile" doctorId
    [("status", JText (Some status_arg)); ("reason", JText reason)].

(** [mutationFn] of [updateVerificationMutation]. The policies of
    [profiles] and [audit_logs] are declared by migrations that are not
    among the sources: [update_error] is the error of the update, if the
    database answers with one, [profile_visible] says which rows the
    update reaches, and [insert_accepted] whether the insert passes. The
    result of the insert is not looked at. *)
Definition updateVerificationMutation (db : database) (auth_uid : option uuid)
    (update_error : option error) (profile_visible : Profile -> bool)
    (insert_accepted : bool) (doctorId : uuid) (status_arg : string)
    (reason : option string) : database * result unit :=
  match update_error with
  | Some e => (db, Err e)
  | None =>
      let db1 :=
        with_profiles db
          (map (fun p => if profile_visible p
                         then set_verification_status doctorId status_arg p else p)
               (profiles db)) in
      if insert_accepted
      then (with_audit db1
              (audit_logs db1 ++ [verification_entry auth_uid doctorId status_arg reason]),
            Ok tt)
      else (db1, Ok tt)
  end.

(** ** Tag resolution (pages/ScanCareTag.tsx) *)

(** A string of the page is the sequence of its code units. [trim] and
    [toUpperCase] below are [String.prototype.trim] and
    [String.prototype.toUpperCase] on strings of ASCII characters, the
    alphabet of tag identifiers ([CT-2026-1234]; the keyboard reader
    accepts [a-zA-Z0-9-] only). On other strings the engine removes more
    white space (U+00A0, U+FEFF, U+2028, ...) and maps more letters; what
    is said about every scanned string is stated over
    [processScannedId_js] further down, which takes the two functions of
    the engine as they are. *)

(** White space of [String.prototype.trim] below 128: tab, line feed,
    vertical tab, form feed, carriage return, space. *)
Definition is_white_space (c : ascii) : bool :=
  let n := N_of_ascii c in
  ((9 <=? n) && (n <=? 13) || (n =? 32))%N.

Fixpoint trimStart (s : string) : string :=
  match s with
  | EmptyString => EmptyString
  | String c rest => if is_white_space c then trimStart rest else s
  end.

Fixpoint trimEnd (s : string) : string :=
  match s with
  | EmptyString => EmptyString
  | String c rest =>
      match trimEnd rest with
      | EmptyString => if is_white_space c then EmptyString else String c EmptyString
      | kept => String c kept
      end
  end.

(** [s.trim()]. *)
Definition trim (s : string) : string := trimEnd (trimStart s).

Definition upper_char (c : ascii) : ascii :=
  let n := N_of_ascii c in
  if ((97 <=? n) && (n <=? 122))%N then ascii_of_N (n - 32) else c.

(** [s.toUpperCase()]. *)
Fixpoint toUpperCase (s : string) : string :=
  match s with
  | EmptyString => EmptyString
  | String c rest => String (upper_char c) (toUpperCase rest)
  end.

(** The search parameters of the page URL: [expect], [name] and [id]. *)
Record SearchParams := mkSearchParams {
  param_expect : option string;
  param_name : option string;
  param_id : option string
}.

(** [searchParams.get('expect')?.toUpperCase() || null]. *)
Definition expectedCaretagId (sp : SearchParams) : option string :=
  or_null (option_map toUpperCase (param_expect sp)).

(** [searchParams.get('id') || null]. *)
Definition expectedPatientId (sp : SearchParams) : option string :=
  or_null (param_id sp).

(** How a call of [processScannedId] ends: it returns at once because a
    scan is being processed, it reports a mismatch, it navigates to
    [/patients/<id>], or it lands in the [catch] block. *)
Inductive ScanOutcome :=
| Ignored
| Mismatch (scannedId : string)
| Navigated (patientId : uuid)
| Failed.

(** [newPatientData.caretag_id = scannedId]. *)
Definition set_caretag_id (d : PatientData) (scannedId : string) : PatientData :=
  mkPatientData (pat_full_name d) scannedId (date_of_birth d) (gender d)
    (blood_group d) (phone d) (pat_email d).

(** [from('patients').select(...).eq('caretag_id', scannedId).maybeSingle()]. *)
Definition find_patient (db : database) (scannedId : string) : result (option Patient) :=
  maybeSingle (filter (fun p => String.eqb (caretag_id (pat_data p)) scannedId) (patients db)).

(** [from('patients').insert(newPatientData).select(...).single()] with the
    generated key [new_uuid]. *)
Definition insert_patient (db : database) (new_uuid : uuid) (d : PatientData)
    : database * result Patient :=
  if existsb (fun p => String.eqb (pat_id p) new_uuid) (patients db)
  then (db, Err UniqueViolation)
  else (with_patients db (patients db ++ [mkPatient new_uuid d]),
        Ok (mkPatient new_uuid d)).

(** [await startSession(id); ...; navigate(`/patients/${id}`)], or the
    [catch] block when [startSession] throws. *)
Definition start_and_navigate (db : database) (user : option uuid) (patientId : uuid)
    (now db_now : timestamp) (session_uuid : uuid) : database * ScanOutcome :=
  match startSession db user patientId now db_now session_uuid with
  | (db', Ok _) => (db', Navigated patientId)
  | (db', Err _) => (db', Failed)
  end.

(** The part of [processScannedId] after the expected-patient checks:
    look the tag up, create the patient when it is unknown, start the
    session. *)
Definition resolve_tag (db : database) (user : option uuid) (scannedId : string)
    (randomPatient : PatientData) (patient_uuid session_uuid : uuid)
    (now db_now : timestamp) : database * ScanOutcome :=
  match find_patient db scannedId with
  | Err _ => (db, Failed)
  | Ok (Some existingPatient) =>
      start_and_navigate db user (pat_id existingPatient) now db_now session_uuid
  | Ok None =>
      match insert_patient db patient_uuid (set_caretag_id randomPatient scannedId) with
      | (db1, Err _) => (db1, Failed)
      | (db1, Ok newPatient) =>
          start_and_navigate db1 user (pat_id newPatient) now db_now session_uuid
      end
  end.

(** [processScannedId(caretagId)]. [processing] is [processingRef.current]
    on entry, [randomPatient] the value of [generateRandomPatient()],
    [patient_uuid] and [session_uuid] the keys the database generates.
    [expectedCaretagId] and [expectedPatientId] are [null] or non-empty,
    so their truthiness tests are the [Some] cases. *)
Definition processScannedId (db : database) (user : option uuid) (sp : SearchParams)
    (processing : bool) (caretagId : string) (randomPatient : PatientData)
    (patient_uuid session_uuid : uuid) (now db_now : timestamp)
    : database * ScanOutcome :=
  if processing then (db, Ignored)
  else
    let scannedId := toUpperCase (trim caretagId) in
    match expectedCaretagId sp with
    | Some expected =>
        if negb (String.eqb scannedId expected) then (db, Mismatch scannedId)
        else
          match expectedPatientId sp with
          | Some patientId =>
              start_and_navigate db user patientId now db_now session_uuid
          | None =>
              resolve_tag db user scannedId randomPatient patient_uuid session_uuid
                now db_now
          end
    | None =>
        resolve_tag db user scannedId randomPatient patient_uuid session_uuid now db_now
    end.

(** ** Tag resolution over the strings of the engine *)

Section EngineStrings.

(** [String.prototype.trim] and [String.prototype.toUpperCase] as the
    engine computes them, on every string. Nothing is assumed of
    them. *)
Variables js_trim js_toUpperCase : string -> string.

(** [searchParams.get('expect')?.toUpperCase() || null]. *)
Definition expectedCaretagId_js (sp : SearchParams) : option string :=
  or_null (option_map js_toUpperCase (param_expect sp)).

(** [processScannedId(caretagId)], statement by statement as above. *)
Definition processScannedId_js (db : database) (user : option uuid) (sp : SearchParams)
    (processing : bool) (caretagId : string) (randomPatient : PatientData)
    (patient_uuid session_uuid : uuid) (now db_now : timestamp)
    : database * ScanOutcome :=
  if processing then (db, Ignored)
  else
    let scannedId := js_toUpperCase (js_trim caretagId) in
    match expectedCaretagId_js sp with
    | Some expected =>
        if negb (String.eqb scannedId expected) then (db, Mismatch scannedId)
        else
          match expectedPatientId sp with
          | Some patientId =>
              start_and_navigate db user patientId now db_now session_uuid
          | None =>
              resolve_tag db user scannedId randomPatient patient_uuid session_uuid
                now db_now
          end
    | None =>
        resolve_tag db user scannedId randomPatient patient_uuid session_uuid now db_now
    end.

End EngineStrings.

(** ** Reachable states *)

(** What the application does to the database in one go: a call of one
    of the functions of the database, which runs in a transaction, or a
    handler of the client run without another request in between, or one
    of the requests such a handler sends, alone. The handlers send their
    requests one by one, so the runs of two handlers can interleave; the
    last four constructors are the single requests that write: the
    update and the insert of [startSession], the insert into [patients]
    of the scan pages and the dashboard, and the update and insert of
    the verification panel ([updateVerificationMutation] with one of the
    two switched off is one request alone). The prescription form writes
    to a table that is not modelled. *)
Inductive step (db : database) : database -> Prop :=
| step_handle_new_user NEW :
    step db (handle_new_user db NEW)
| step_promote_to_admin auth_uid target now :
    step db (fst (promote_to_admin db auth_uid target now))
| step_demote_from_admin auth_uid target now :
    step db (fst (demote_from_admin db auth_uid target now))
| step_startSession user patientId now db_now new_uuid :
    step db (fst (startSession db user patientId now db_now new_uuid))
| step_endSession auth_uid sessionId notes_arg now :
    step db (fst (endSession db auth_uid sessionId notes_arg now))
| step_processScannedId user sp processing caretagId randomPatient
    patient_uuid session_uuid now db_now :
    step db (fst (processScannedId db user sp processing caretagId randomPatient
                    patient_uuid session_uuid now db_now))
| step_closeActiveSessions (uid : uuid) now :
    truthy (Some uid) = true ->
    step db (closeActiveSessions db uid now)
| step_insertSession (uid patientId : uuid) db_now new_uuid :
    truthy (Some uid) = true ->
    step db (fst (insertSession db uid patientId db_now new_uuid))
| step_insert_patient new_uuid d :
    step db (fst (insert_patient db new_uuid d))
| step_updateVerificationMutation auth_uid update_error profile_visible
    insert_accepted doctorId status_arg reason :
    step db (fst (updateVerificationMutation db auth_uid update_error profile_visible
                    insert_accepted doctorId status_arg reason)).

(** The states the application reaches, its requests interleaved in any
    order, from a database whose [access_sessions] table is as the
    migration creates it: empty. *)
Inductive reachable : database -> Prop :=
| reachable_init db0 : access_sessions db0 = [] -> reachable db0
| reachable_step db db' : reachable db -> step db db' -> reachable db'.

(** The sessions of a doctor whose status is active. *)
Definition active_sessions_of (db : database) (d : uuid) : list AccessSession :=
  filter (fun s => String.eqb (doctor_id s) d && session_status_eqb (status s) active)
         (access_sessions db).

(** The status of the sessions with a given id. *)
Definition status_of (db : database) (sessionId : uuid) : list session_status :=
  map status (filter (fun s => String.eqb (id s) sessionId) (access_sessions db)).

(** The read decision in the words of the policy evaluator: an admin
    reads; a doctor reads exactly with a usable session; nobody else
    reads. *)
Definition read_decision (is_admin is_doctor with_session : bool) : bool :=
  if is_admin then true
  else if is_doctor then with_session
  else false.


(** What a demotion does to one stored role. *)
Definition demoted (r : app_role) : app_role :=
  match r with
  | admin => doctor
  | doctor => doctor
  end.

(** What one step can do to the [access_sessions] table: nothing, the
    update of [endSession], the update of [startSession], that update
    followed by the insert, or the insert alone. *)
Inductive table_step (l : list AccessSession) : list AccessSession -> Prop :=
| table_same : table_step l l
| table_end auth_uid sessionId notes_arg now :
    table_step l (map (end_if_id auth_uid sessionId notes_arg now) l)
| table_close uid now :
    table_step l (map (close_if_active (Some uid) uid now) l)
| table_start uid now new_uuid patientId db_now :
    table_step l (map (close_if_active (Some uid) uid now) l
                  ++ [new_session new_uuid uid patientId db_now])
| table_insert uid new_uuid patientId db_now :
    table_step l (l ++ [new_session new_uuid uid patientId db_now]).

(** The test behind [active_sessions_of]. *)
Definition active_of (d : uuid) (s : AccessSession) : bool :=
  String.eqb (doctor_id s) d && session_status_eqb (status s) active.

(** A session after it was closed at [now] with the notes [n]. *)
Definition closed_at (now : timestamp) (n : option string) (s : AccessSession)
    : AccessSession :=
  mkSession (id s) (doctor_id s) (patient_id s) (started_at s)
    (Some now) completed n (created_at s).

(** The two kinds of entry the application adds to the audit log: the
    one [promote_to_admin] and [demote_from_admin] write, for a caller
    who is an admin, and the one the verification panel writes. *)
Definition entry_of_role_function (db : database) (entry : AuditLog) : Prop :=
  (action entry = "PROMOTE_TO_ADMIN" \/ action entry = "DEMOTE_FROM_ADMIN")
  /\ entity_type entry = "user_roles"
  /\ has_role db (audit_user_id entry) admin = true.

Definition entry_of_verification_panel (entry : AuditLog) : Prop :=
  (exists status_arg, action entry = ("doctor_verification_" ++ status_arg)%string)
  /\ entity_type entry = "profile".

(** ** A small clinic, used to run the operations on concrete data *)

Definition some_patient_data (tag : string) : PatientData :=
  mkPatientData "Alex Smith" tag "1980-01-01" "Female" "O+" "+1-555-1000"
    "alex.smith@email.com".

(** One admin, one registered patient, no session yet. *)
Definition clinic0 : database :=
  mkDb [] [mkUserRole "root" admin] [] []
       [mkPatient "pat-1" (some_patient_data "CT-2026-0001");
        mkPatient "pat-2" (some_patient_data "CT-2026-0002")].

(** A signup whose payload asks for the admin role. *)
Definition signup_a : NewUser :=
  mkNewUser "dr-a" (Some "a@clinic.org") [("full_name", "Dr A"); ("role", "admin")].

(** [dr-a] has signed up. *)
Definition clinic1 : database := handle_new_user clinic0 signup_a.

(** [dr-a] has opened a session with [pat-1] at time 10. *)
Definition clinic2 : database :=
  fst (startSession clinic1 (Some "dr-a") "pat-1" 10 10 "ses-1").

(** [root] has promoted [dr-a] at time 20. *)
Definition clinic3 : database :=
  fst (promote_to_admin clinic2 (Some "root") "dr-a" 20).

(** A medical record of [pat-1] written by [dr-a], and a vitals row of
    [pat-1] that names no doctor. *)
Definition record_of_a : SensitiveRow := mkRow "pat-1" (Some "dr-a").
Definition vitals_row : SensitiveRow := mkRow "pat-1" None.

(** [dr-a] has moved on to [pat-2] at time 20. *)
Definition clinic4 : database :=
  fst (startSession clinic2 (Some "dr-a") "pat-2" 20 21 "ses-2").

(** [dr-a], with the session with [pat-1] open, starts a session with
    [pat-2] at time 20 in one tab and one with [pat-1] at time 21 in
    another, and the two updates reach the database before the two
    inserts. *)
Definition overlapped : database * (result AccessSession * result AccessSession) :=
  startSession_overlapped clinic2 "dr-a" "pat-2" 20 22 "ses-2" "pat-1" 21 23 "ses-3".

(** A table with a session that is active until time 100, and one with a
    session that has expired. *)
Definition timed_session : AccessSession :=
  mkSession "ses-9" "dr-a" "pat-1" 0 (Some 100) active None 0.

Definition timed_db : database :=
  mkDb [timed_session] [mkUserRole "dr-a" doctor] [] []
       [mkPatient "pat-1" (some_patient_data "CT-2026-0001")].

Definition expired_session : AccessSession :=
  mkSession "ses-8" "dr-a" "pat-1" 0 (Some 5) expired (Some "seen") 0.

Definition expired_db : database :=
  mkDb [expired_session] [mkUserRole "dr-a" doctor] [] []
       [mkPatient "pat-1" (some_patient_data "CT-2026-0001")].

(** A string of white space only. *)
Fixpoint all_white_space (s : string) : bool :=
  match s with
  | EmptyString => true
  | String c rest => is_white_space c && all_white_space rest
  end.

(** Whether a call of [startSession] made from the scan page leads to
    the patient page or to the [catch] block. *)
Definition outcome_of_start (patientId : uuid) (r : result AccessSession) : ScanOutcome :=
  match r with
  | Ok _ => Navigated patientId
  | Err _ => Failed
  end.

(** A page opened with an expected tag, and one opened with an expected
    tag and a patient id. *)
Definition expecting_tag : SearchParams :=
  mkSearchParams (Some "ct-2026-0001") None None.

Definition expecting_patient : SearchParams :=
  mkSearchParams (Some "ct-2026-0001") (Some "Alex Smith") (Some "pat-2").

Definition no_expectation : SearchParams := mkSearchParams None None None.

(** ** Readers of the session table in the pages *)

(** The sessions of one doctor, whatever their status. *)
Definition sessions_of (db : database) (d : uuid) : list AccessSession :=
  filter (fun s => String.eqb (doctor_id s) d) (access_sessions db).

(** [.order('started_at', { ascending: false })], as an insertion sort:
    a row goes before the first row that started earlier. *)
Fixpoint insert_by_started_at (s : AccessSession) (l : list AccessSession)
    : list AccessSession :=
  match l with
  | [] => [s]
  | x :: rest =>
      if started_at x <? started_at s then s :: l
      else x :: insert_by_started_at s rest
  end.

Definition order_by_started_at_desc (l : list AccessSession) : list AccessSession :=
  fold_right insert_by_started_at [] l.

(** The embedded [patients:patient_id (...)] of a session row. *)
Definition patient_of (db : database) (patientId : uuid) : option Patient :=
  find (fun p => String.eqb (pat_id p) patientId) (patients db).

(** The data of [useActiveSessions()]: the rows of [activeSessionsQuery],
    latest first, each with its patient. *)
Definition useActiveSessions (db : database) (user : option uuid)
    : list (AccessSession * option Patient) :=
  map (fun s => (s, patient_of db (patient_id s)))
      (order_by_started_at_desc (activeSessionsQuery db user)).





(** ** Other entry points of tag resolution *)

(** The callback [useQrScanner] hands a decoded text to:
    [onScan?.(decodedText.toUpperCase())] with [onScan = processScannedId]. *)
Definition qr_onScan (db : database) (user : option uuid) (sp : SearchParams)
    (processing : bool) (decodedText : string) (randomPatient : PatientData)
    (patient_uuid session_uuid : uuid) (now db_now : timestamp)
    : database * ScanOutcome :=
  processScannedId db user sp processing (toUpperCase decodedText) randomPatient
    patient_uuid session_uuid now db_now.

(** [handleManualSearch]: nothing on a blank input, otherwise
    [processScannedId(manualId.trim())]. *)
Definition handleManualSearch (db : database) (user : option uuid) (sp : SearchParams)
    (processing : bool) (manualId : string) (randomPatient : PatientData)
    (patient_uuid session_uuid : uuid) (now db_now : timestamp)
    : database * option ScanOutcome :=
  if String.eqb (trim manualId) "" then (db, None)
  else
    let run := processScannedId db user sp processing (trim manualId) randomPatient
                 patient_uuid session_uuid now db_now in
    (fst run, Some (snd run)).

(** [processScannedId] of the earlier scan page, which has no expected
    patient. *)
Definition processScannedId_direct (db : database) (user : option uuid)
    (processing : bool) (caretagId : string) (randomPatient : PatientData)
    (patient_uuid session_uuid : uuid) (now db_now : timestamp)
    : database * ScanOutcome :=
  if processing then (db, Ignored)
  else
    resolve_tag db user (toUpperCase (trim caretagId)) randomPatient
      patient_uuid session_uuid now db_now.

(** How [searchPatient] of the scanner dialog and of the lookup page ends. *)
Inductive SearchOutcome :=
| SearchSkipped
| SearchFound (p : Patient)
| SearchNotFound
| SearchFailed.

(** [searchPatient] of the lookup page: look the tag up, nothing else. *)
Definition searchPatient (db : database) (caretagId : string) : SearchOutcome :=
  match find_patient db (toUpperCase (trim caretagId)) with
  | Err _ => SearchFailed
  | Ok (Some p) => SearchFound p
  | Ok None => SearchNotFound
  end.

(** [searchPatient] of the scanner dialog: the same behind a guard on
    blank input. *)
Definition dialog_searchPatient (db : database) (caretagId : string) : SearchOutcome :=
  if String.eqb (trim caretagId) "" then SearchSkipped
  else searchPatient db caretagId.

(** ** The keyboard reader *)

(** The class [[a-zA-Z0-9\-]]. *)
Definition is_tag_char (c : ascii) : bool :=
  let n := N_of_ascii c in
  ((97 <=? n) && (n <=? 122) || (65 <=? n) && (n <=? 90)
   || (48 <=? n) && (n <=? 57) || (n =? 45))%N.

(** [/^[a-zA-Z0-9\-]$/.test(e.key)]: one character of the class. *)
Definition is_tag_key (key : string) : bool :=
  match key with
  | String c EmptyString => is_tag_char c
  | _ => false
  end.

Fixpoint all_tag_chars (s : string) : bool :=
  match s with
  | EmptyString => true
  | String c rest => is_tag_char c && all_tag_chars rest
  end.

(** [handleKeyDown(e)] on the buffer [rfidBuffer]. [ignoring] is
    [scanState === 'manual' || processingRef.current]. The result holds
    the new buffer and the identifier handed to [processScannedId], if
    any. *)
Definition handleKeyDown (ignoring : bool) (rfidBuffer : string) (key : string)
    : string * option string :=
  if ignoring then (rfidBuffer, None)
  else if String.eqb key "Enter" && negb (String.eqb rfidBuffer "") then
    let scannedId := trim rfidBuffer in
    ("", if String.eqb scannedId "" then None else Some scannedId)
  else if is_tag_key key then ((rfidBuffer ++ key)%string, None)
  else (rfidBuffer, None).

(** What the page receives: a key, or the callback of the 100 ms timer,
    [setRfidBuffer('')]. When that callback runs depends on real time and
    on the clean-up of the effect, which cancels the timer; the model
    leaves it open and allows the callback at any point. *)
Inductive RfidEvent :=
| KeyDown (ignoring : bool) (key : string)
| TimerFired.

Definition rfid_step (rfidBuffer : string) (e : RfidEvent) : string * option string :=
  match e with
  | KeyDown ignoring key => handleKeyDown ignoring rfidBuffer key
  | TimerFired => ("", None)
  end.

(** The buffer after a sequence of events and the identifiers handed over
    on the way, in order. *)
Fixpoint rfid_run (rfidBuffer : string) (events : list RfidEvent)
    : string * list string :=
  match events with
  | [] => (rfidBuffer, [])
  | e :: rest =>
      let (buffer1, out) := rfid_step rfidBuffer e in
      let (buffer2, outs) := rfid_run buffer1 rest in
      (buffer2, match out with Some scannedId => scannedId :: outs | None => outs end)
  end.

Fixpoint concat_keys (keys : list string) : string :=
  match keys with
  | [] => EmptyString
  | k :: rest => (k ++ concat_keys rest)%string
  end.

(** ** The demo scan *)

(** The decimal digits of a non-negative integer, as a template literal
    prints it. *)
Definition string_of_N (n : N) : string :=
  DecimalString.NilEmpty.string_of_uint (N.to_uint n).

(** [generateCareTagId()]: [year] is [new Date().getFullYear()] and
    [roll] is [Math.floor(Math.random() * 9000)]. *)
Definition generateCareTagId (year roll : N) : string :=
  ("CT-" ++ string_of_N year ++ "-" ++ string_of_N (roll + 1000))%string.



(** * Proofs *)

(** ** Equality tests *)

Lemma app_role_eqb_eq a b : app_role_eqb a b = true <-> a = b.
Proof. destruct a, b; simpl; split; congruence. Qed.

Lemma session_status_eqb_eq a b : session_status_eqb a b = true <-> a = b.
Proof. destruct a, b; simpl; split; congruence. Qed.

Lemma is_uid_true x o : is_uid x o = true <-> o = Some x.
Proof.
  destruct o as [u|]; simpl.
  - rewrite String.eqb_eq. split; congruence.
  - split; discriminate.
Qed.

Lemma session_live_Usable now s : session_live now s = true <-> Usable now s.
Proof.
  unfold session_live, Usable.
  rewrite andb_true_iff, session_status_eqb_eq.
  destruct (ended_at s) as [e|].
  - rewrite Z.ltb_lt. split.
    + intros [Hs He]. split; [exact Hs|]. right. exists e. auto.
    + intros [Hs [Hn | [e' [He' Hlt]]]]; [discriminate|].
      injection He' as <-. auto.
  - split; intros [Hs _]; auto.
Qed.

(** [has_active_session] holds exactly when the table has a usable
    session of that doctor with that patient. *)
Lemma has_active_session_iff db now auth_uid p :
  has_active_session db now auth_uid p = true <->
  exists s, In s (access_sessions db) /\ auth_uid = Some (doctor_id s)
            /\ patient_id s = p /\ Usable now s.
Proof.
  unfold has_active_session. rewrite existsb_exists.
  split; intros [s [Hin H]]; exists s; split; try exact Hin.
  - rewrite !andb_true_iff in H. destruct H as [[Hd Hp] Hl].
    apply is_uid_true in Hd. apply String.eqb_eq in Hp.
    apply session_live_Usable in Hl. auto.
  - destruct H as [Hd [Hp Hl]].
    rewrite !andb_true_iff. repeat split.
    + apply is_uid_true. exact Hd.
    + apply String.eqb_eq. exact Hp.
    + apply session_live_Usable. exact Hl.
Qed.

(** ** Access policy evaluator *)

(** C2. Reading a sensitive row of any of the five tables: a caller with
    the admin role reads whatever the sessions are; a caller with the
    doctor role (and not admin) reads exactly when the table of sessions
    holds a usable session of that caller with the row's patient; a
    caller with neither role is denied. *)
Theorem select_policy_decides :
  forall t db now auth_uid r,
    select_policy t db now auth_uid r
    = read_decision (has_role db auth_uid admin) (has_role db auth_uid doctor)
        (has_active_session db now auth_uid (row_patient_id r))
    /\ (has_role db auth_uid admin = true ->
        select_policy t db now auth_uid r = true)
    /\ (has_role db auth_uid admin = false -> has_role db auth_uid doctor = true ->
        (select_policy t db now auth_uid r = true <->
         exists s, In s (access_sessions db) /\ auth_uid = Some (doctor_id s)
                   /\ patient_id s = row_patient_id r /\ Usable now s))
    /\ (has_role db auth_uid admin = false -> has_role db auth_uid doctor = false ->
        select_policy t db now auth_uid r = false).
Proof.
  intros t db now auth_uid r.
  assert (E : select_policy t db now auth_uid r
              = read_decision (has_role db auth_uid admin) (has_role db auth_uid doctor)
                  (has_active_session db now auth_uid (row_patient_id r))).
  { destruct t; simpl; unfold read_decision;
      destruct (has_role db auth_uid admin), (has_role db auth_uid doctor); reflexivity. }
  split; [exact E|]. rewrite E. unfold read_decision.
  split; [|split].
  - intros ->. reflexivity.
  - intros -> ->. apply has_active_session_iff.
  - intros -> ->. reflexivity.
Qed.


Lemma select_policy_decides_witness :
  select_policy medical_records clinic3 30 (Some "root") record_of_a = true
  /\ select_policy vitals clinic2 30 (Some "dr-a") vitals_row = true
  /\ select_policy lab_results clinic2 30 (Some "nobody") vitals_row = false.
Proof.
  split; [|split].
  - destruct (select_policy_decides medical_records clinic3 30 (Some "root") record_of_a)
      as [_ [H _]].
    apply H. reflexivity.
  - destruct (select_policy_decides vitals clinic2 30 (Some "dr-a") vitals_row)
      as [_ [_ [H _]]].
    apply H; try reflexivity.
    exists (new_session "ses-1" "dr-a" "pat-1" 10).
    unfold Usable; simpl; auto 10.
  - destruct (select_policy_decides lab_results clinic2 30 (Some "nobody") vitals_row)
      as [_ [_ [_ H]]].
    apply H; reflexivity.
Defined.

(** The small clinic is reachable at each of its stages. *)
Lemma clinic_reachable : reachable clinic1 /\ reachable clinic2 /\ reachable clinic3.
Proof.
  assert (R0 : reachable clinic0) by (apply reachable_init; reflexivity).
  assert (R1 : reachable clinic1) by (eapply reachable_step; [exact R0 | constructor]).
  assert (R2 : reachable clinic2) by (eapply reachable_step; [exact R1 | constructor]).
  assert (R3 : reachable clinic3) by (eapply reachable_step; [exact R2 | constructor]).
  auto.
Qed.



(** ** Role registry *)

Lemma has_role_roles_of db u r :
  has_role db (Some u) r = true <-> In r (roles_of db u).
Proof.
  unfold has_role, roles_of. rewrite existsb_exists, in_map_iff.
  split.
  - intros [x [Hin H]]. apply andb_true_iff in H. destruct H as [Hu Hr].
    exists x. split; [apply app_role_eqb_eq; exact Hr|].
    apply filter_In. split; [exact Hin|]. exact Hu.
  - intros [x [Hr Hin]]. apply filter_In in Hin. destruct Hin as [Hin Hu].
    exists x. split; [exact Hin|]. apply andb_true_iff. split; [exact Hu|].
    apply app_role_eqb_eq. exact Hr.
Qed.

(** C5. Whatever the signup payload holds, [handle_new_user] adds one
    role row, the new user with role doctor, and nothing else to the
    registry; two signups that differ only in the payload leave the same
    registry; for a new account (no role stored yet under its id) the
    stored role is doctor and the user is not an admin. *)
Theorem handle_new_user_assigns_doctor :
  forall db NEW,
    user_roles (handle_new_user db NEW) = user_roles db ++ [mkUserRole (new_id NEW) doctor]
    /\ roles_of (handle_new_user db NEW) (new_id NEW) = roles_of db (new_id NEW) ++ [doctor]
    /\ (forall payload,
          user_roles (handle_new_user db (mkNewUser (new_id NEW) (new_email NEW) payload))
          = user_roles (handle_new_user db NEW))
    /\ (roles_of db (new_id NEW) = [] ->
        roles_of (handle_new_user db NEW) (new_id NEW) = [doctor]
        /\ has_role (handle_new_user db NEW) (Some (new_id NEW)) doctor = true
        /\ has_role (handle_new_user db NEW) (Some (new_id NEW)) admin = false).
Proof.
  intros db NEW.
  assert (R : roles_of (handle_new_user db NEW) (new_id NEW)
              = roles_of db (new_id NEW) ++ [doctor]).
  { unfold handle_new_user, roles_of. simpl.
    rewrite filter_app, map_app. simpl. rewrite String.eqb_refl. reflexivity. }
  split; [reflexivity|]. split; [exact R|]. split; [reflexivity|].
  intros Hfresh. rewrite Hfresh in R. simpl in R.
  split; [exact R|]. split.
  - apply has_role_roles_of. rewrite R. left. reflexivity.
  - destruct (has_role (handle_new_user db NEW) (Some (new_id NEW)) admin) eqn:E;
      [|reflexivity].
    apply has_role_roles_of in E. rewrite R in E.
    destruct E as [E | []]. discriminate E.
Qed.

Lemma handle_new_user_assigns_doctor_witness :
  roles_of clinic1 "dr-a" = [doctor]
  /\ has_role clinic1 (Some "dr-a") doctor = true
  /\ has_role clinic1 (Some "dr-a") admin = false.
Proof.
  destruct (handle_new_user_assigns_doctor clinic0 signup_a) as [_ [_ [_ H]]].
  apply H. reflexivity.
Defined.

Lemma set_doctor_user_id target r : user_id (set_doctor target r) = user_id r.
Proof.
  unfold set_doctor.
  destruct (String.eqb (user_id r) target && app_role_eqb (role r) admin); reflexivity.
Qed.

Lemma set_doctor_role target r :
  role (set_doctor target r)
  = if String.eqb (user_id r) target then demoted (role r) else role r.
Proof.
  unfold set_doctor.
  destruct (String.eqb (user_id r) target); simpl; [|reflexivity].
  destruct (role r) eqn:E; simpl; [exact E | reflexivity].
Qed.

Lemma roles_of_set_doctor db target (u : uuid) :
  roles_of (with_roles db (map (set_doctor target) (user_roles db))) u
  = if String.eqb u target then map demoted (roles_of db u) else roles_of db u.
Proof.
  unfold roles_of. simpl.
  induction (user_roles db) as [|r l IH]; simpl.
  - destruct (String.eqb u target); reflexivity.
  - rewrite set_doctor_user_id.
    destruct (String.eqb (user_id r) u) eqn:Eu; simpl; [|exact IH].
    rewrite IH, set_doctor_role.
    apply String.eqb_eq in Eu. rewrite Eu.
    destruct (String.eqb u target); reflexivity.
Qed.

(** C8. [demote_from_admin]: a caller without the admin role gets the
    exception "Only admins can demote users" (the spec's Forbidden) and
    nothing changes; an admin who names himself gets "Cannot demote
    yourself" (the spec's InvalidOperation) and nothing changes, however
    many admins there are; otherwise the call succeeds, every admin role
    of the target becomes doctor, every other stored role (of the target
    or of anybody else) stays as it was, and one audit entry is appended
    that records the caller as actor and the target as entity. *)
Theorem demote_from_admin_contract :
  forall db auth_uid target now,
    (has_role db auth_uid admin = false ->
     demote_from_admin db auth_uid target now
     = (db, Err (RaiseException msg_demote_forbidden)))
    /\ (has_role db auth_uid admin = true -> auth_uid = Some target ->
        demote_from_admin db auth_uid target now
        = (db, Err (RaiseException msg_demote_self)))
    /\ (has_role db auth_uid admin = true -> auth_uid <> Some target ->
        let db' := fst (demote_from_admin db auth_uid target now) in
        snd (demote_from_admin db auth_uid target now) = Ok tt
        /\ roles_of db' target = map demoted (roles_of db target)
        /\ (forall u, u <> target -> roles_of db' u = roles_of db u)
        /\ List.length (user_roles db') = List.length (user_roles db)
        /\ audit_logs db' = audit_logs db ++ [demotion_entry auth_uid target now]
        /\ audit_user_id (demotion_entry auth_uid target now) = auth_uid
        /\ entity_id (demotion_entry auth_uid target now) = target
        /\ access_sessions db' = access_sessions db
        /\ patients db' = patients db).
Proof.
  intros db auth_uid target now. unfold demote_from_admin.
  split; [|split].
  - intros ->. reflexivity.
  - intros -> ->. simpl. rewrite String.eqb_refl. reflexivity.
  - intros -> Hne. simpl.
    assert (Hu : is_uid target auth_uid = false).
    { destruct (is_uid target auth_uid) eqn:E; [|reflexivity].
      apply is_uid_true in E. contradiction. }
    rewrite Hu. simpl.
    split; [reflexivity|]. split; [|split; [|split]].
    + pose proof (roles_of_set_doctor db target target) as H.
      rewrite String.eqb_refl in H. exact H.
    + intros u Hut. pose proof (roles_of_set_doctor db target u) as H.
      apply String.eqb_neq in Hut. rewrite Hut in H. exact H.
    + apply length_map.
    + repeat split; reflexivity.
Qed.

Lemma demote_from_admin_contract_witness :
  demote_from_admin clinic2 (Some "dr-a") "root" 40
  = (clinic2, Err (RaiseException msg_demote_forbidden))
  /\ demote_from_admin clinic2 (Some "root") "root" 40
     = (clinic2, Err (RaiseException msg_demote_self))
  /\ roles_of (fst (demote_from_admin clinic3 (Some "root") "dr-a" 40)) "dr-a"
     = map demoted (roles_of clinic3 "dr-a").
Proof.
  split; [|split].
  - destruct (demote_from_admin_contract clinic2 (Some "dr-a") "root" 40) as [H _].
    apply H. reflexivity.
  - destruct (demote_from_admin_contract clinic2 (Some "root") "root" 40) as [_ [H _]].
    apply H; reflexivity.
  - destruct (demote_from_admin_contract clinic3 (Some "root") "dr-a" 40) as [_ [_ H]].
    apply H; [reflexivity | discriminate].
Defined.

(** ** Session lifecycle *)

Lemma close_if_active_spec auth uid now s :
  close_if_active (Some auth) uid now s
  = if String.eqb (doctor_id s) auth && String.eqb (doctor_id s) uid
       && session_status_eqb (status s) active
    then closed_at now (notes s) s else s.
Proof. reflexivity. Qed.

Lemma close_if_active_own uid now s :
  close_if_active (Some uid) uid now s
  = if active_of uid s then closed_at now (notes s) s else s.
Proof.
  rewrite close_if_active_spec. unfold active_of.
  destruct (String.eqb (doctor_id s) uid); reflexivity.
Qed.

Lemma close_if_active_doctor auth uid now s :
  doctor_id (close_if_active auth uid now s) = doctor_id s.
Proof.
  unfold close_if_active.
  destruct (rls_update_session auth s && String.eqb (doctor_id s) uid
            && session_status_eqb (status s) active); reflexivity.
Qed.

Lemma close_if_active_id auth uid now s :
  id (close_if_active auth uid now s) = id s.
Proof.
  unfold close_if_active.
  destruct (rls_update_session auth s && String.eqb (doctor_id s) uid
            && session_status_eqb (status s) active); reflexivity.
Qed.

Lemma close_if_active_status auth uid now s :
  status (close_if_active auth uid now s) = status s
  \/ (status s = active /\ status (close_if_active auth uid now s) = completed).
Proof.
  unfold close_if_active.
  destruct (rls_update_session auth s && String.eqb (doctor_id s) uid) ; simpl; auto.
  destruct (session_status_eqb (status s) active) eqn:E; simpl; auto.
  apply session_status_eqb_eq in E. auto.
Qed.

Lemma end_if_id_doctor auth sid n now s :
  doctor_id (end_if_id auth sid n now s) = doctor_id s.
Proof.
  unfold end_if_id.
  destruct (rls_update_session auth s && String.eqb (id s) sid); reflexivity.
Qed.

Lemma end_if_id_id auth sid n now s :
  id (end_if_id auth sid n now s) = id s.
Proof.
  unfold end_if_id.
  destruct (rls_update_session auth s && String.eqb (id s) sid); reflexivity.
Qed.

Lemma end_if_id_status auth sid n now s :
  status (end_if_id auth sid n now s) = status s
  \/ status (end_if_id auth sid n now s) = completed.
Proof.
  unfold end_if_id.
  destruct (rls_update_session auth s && String.eqb (id s) sid); simpl; auto.
Qed.

Lemma end_if_id_hit uid sid n now s :
  doctor_id s = uid -> id s = sid ->
  end_if_id (Some uid) sid n now s = closed_at now (or_null n) s.
Proof.
  intros <- <-. unfold end_if_id, rls_update_session. simpl.
  rewrite !String.eqb_refl. reflexivity.
Qed.

(** A row update that keeps the doctor and never makes a row active keeps
    or shrinks every doctor's list of active sessions. *)
Lemma filter_map_length_le {A} (P : A -> bool) (f : A -> A) (l : list A) :
  (forall x, P (f x) = true -> P x = true) ->
  (List.length (filter P (map f l)) <= List.length (filter P l))%nat.
Proof.
  intros H. induction l as [|x l IH]; simpl; [lia|].
  destruct (P (f x)) eqn:E.
  - rewrite (H x E). simpl. lia.
  - destruct (P x); simpl; lia.
Qed.

Lemma filter_none {A} (P : A -> bool) (l : list A) :
  (forall x, In x l -> P x = false) -> filter P l = [].
Proof.
  intros H. induction l as [|x l IH]; simpl; [reflexivity|].
  rewrite (H x (or_introl eq_refl)). apply IH. intros y Hy. apply H. right. exact Hy.
Qed.

Lemma filter_filter_implied {A} (P Q : A -> bool) (l : list A) :
  (forall x, P x = true -> Q x = true) -> filter P (filter Q l) = filter P l.
Proof.
  intros H. induction l as [|x l IH]; simpl; [reflexivity|].
  destruct (Q x) eqn:EQ; simpl.
  - rewrite IH. reflexivity.
  - destruct (P x) eqn:EP; [|exact IH].
    rewrite (H x EP) in EQ. discriminate EQ.
Qed.

Lemma active_of_close_own uid now s :
  active_of uid (close_if_active (Some uid) uid now s) = false.
Proof.
  rewrite close_if_active_own.
  destruct (active_of uid s) eqn:E; [|exact E].
  unfold active_of. simpl. apply andb_false_r.
Qed.

Lemma active_of_close_back auth uid now d s :
  active_of d (close_if_active auth uid now s) = true -> active_of d s = true.
Proof.
  unfold active_of. rewrite close_if_active_doctor.
  intros H. apply andb_true_iff in H. destruct H as [Hd Hs].
  rewrite Hd. simpl.
  apply session_status_eqb_eq in Hs. apply session_status_eqb_eq.
  destruct (close_if_active_status auth uid now s) as [E | [E1 E2]]; congruence.
Qed.

Lemma active_of_end_back auth sid n now d s :
  active_of d (end_if_id auth sid n now s) = true -> active_of d s = true.
Proof.
  unfold active_of. rewrite end_if_id_doctor.
  intros H. apply andb_true_iff in H. destruct H as [Hd Hs].
  rewrite Hd. simpl.
  apply session_status_eqb_eq in Hs. apply session_status_eqb_eq.
  destruct (end_if_id_status auth sid n now s) as [E | E]; congruence.
Qed.

(** After the two statements of [startSession] the doctor's active
    sessions are the new row alone. *)
Lemma active_after_start l uid now new_uuid p db_now :
  filter (active_of uid)
    (map (close_if_active (Some uid) uid now) l ++ [new_session new_uuid uid p db_now])
  = [new_session new_uuid uid p db_now].
Proof.
  rewrite filter_app. rewrite filter_none.
  - simpl. unfold active_of. simpl. rewrite String.eqb_refl. reflexivity.
  - intros x Hx. apply in_map_iff in Hx. destruct Hx as [s [<- _]].
    apply active_of_close_own.
Qed.

(** An active session has no end timestamp, and no session is expired. *)
Lemma table_step_active_open l l' :
  table_step l l' ->
  (forall s, In s l -> status s = active -> ended_at s = None) ->
  forall s, In s l' -> status s = active -> ended_at s = None.
Proof.
  intros Hstep Hinv s Hin Hs.
  destruct Hstep as [|auth sid n now|uid now|uid now new_uuid p db_now
                    |uid new_uuid p db_now].
  - auto.
  - apply in_map_iff in Hin. destruct Hin as [s0 [<- Hin0]].
    revert Hs. unfold end_if_id.
    destruct (rls_update_session auth s0 && String.eqb (id s0) sid); simpl;
      [discriminate | auto].
  - apply in_map_iff in Hin. destruct Hin as [s0 [<- Hin0]].
    revert Hs. unfold close_if_active.
    destruct (rls_update_session (Some uid) s0 && String.eqb (doctor_id s0) uid
              && session_status_eqb (status s0) active); simpl;
      [discriminate | auto].
  - apply in_app_or in Hin. destruct Hin as [Hin | [<- | []]]; [|reflexivity].
    apply in_map_iff in Hin. destruct Hin as [s0 [<- Hin0]].
    revert Hs. unfold close_if_active.
    destruct (rls_update_session (Some uid) s0 && String.eqb (doctor_id s0) uid
              && session_status_eqb (status s0) active); simpl;
      [discriminate | auto].
  - apply in_app_or in Hin. destruct Hin as [Hin | [<- | []]]; [auto | reflexivity].
Qed.

Lemma table_step_never_expired l l' :
  table_step l l' ->
  (forall s, In s l -> status s <> expired) ->
  forall s, In s l' -> status s <> expired.
Proof.
  intros Hstep Hinv s Hin.
  destruct Hstep as [|auth sid n now|uid now|uid now new_uuid p db_now
                    |uid new_uuid p db_now].
  - auto.
  - apply in_map_iff in Hin. destruct Hin as [s0 [<- Hin0]].
    destruct (end_if_id_status auth sid n now s0) as [E | E]; rewrite E;
      [auto | discriminate].
  - apply in_map_iff in Hin. destruct Hin as [s0 [<- Hin0]].
    destruct (close_if_active_status (Some uid) uid now s0) as [E | [_ E]]; rewrite E;
      [auto | discriminate].
  - apply in_app_or in Hin. destruct Hin as [Hin | [<- | []]]; [|discriminate].
    apply in_map_iff in Hin. destruct Hin as [s0 [<- Hin0]].
    destruct (close_if_active_status (Some uid) uid now s0) as [E | [_ E]]; rewrite E;
      [auto | discriminate].
  - apply in_app_or in Hin. destruct Hin as [Hin | [<- | []]]; [auto | discriminate].
Qed.

Lemma insert_session_cases db auth s :
  (insert_session db auth s = (with_sessions db (access_sessions db ++ [s]), Ok s)
   /\ rls_insert_session db auth s = true
   /\ existsb (fun s' => String.eqb (id s') (id s)) (access_sessions db) = false
   /\ existsb (fun p => String.eqb (pat_id p) (patient_id s)) (patients db) = true)
  \/ (exists e, insert_session db auth s = (db, Err e)).
Proof.
  unfold insert_session.
  destruct (rls_insert_session db auth s); simpl; [|right; eauto].
  destruct (existsb (fun s' => String.eqb (id s') (id s)) (access_sessions db));
    simpl; [right; eauto|].
  destruct (existsb (fun p => String.eqb (pat_id p) (patient_id s)) (patients db));
    simpl; [left; auto | right; eauto].
Qed.

(** The shape of every run of [startSession]: either nobody is signed in
    and nothing happens, or the doctor's active sessions are closed and
    the insert is rejected, or they are closed and the new row is added. *)
Lemma startSession_cases db user p now db_now new_uuid :
  startSession db user p now db_now new_uuid = (db, Err NotAuthenticated)
  \/ exists uid,
       user = Some uid /\ truthy user = true
       /\ let db1 := with_sessions db
                       (map (close_if_active (Some uid) uid now) (access_sessions db)) in
          (exists e, startSession db user p now db_now new_uuid = (db1, Err e))
          \/ (startSession db user p now db_now new_uuid
              = (with_sessions db1
                   (access_sessions db1 ++ [new_session new_uuid uid p db_now]),
                 Ok (new_session new_uuid uid p db_now))
              /\ has_role db user doctor = true).
Proof.
  unfold startSession.
  destruct user as [uid|]; [|left; reflexivity].
  destruct (truthy (Some uid)) eqn:T; cbv beta iota delta [negb]; [|left; reflexivity].
  right. exists uid. split; [reflexivity|]. split; [reflexivity|].
  destruct (insert_session_cases
              (with_sessions db
                 (map (close_if_active (Some uid) uid now) (access_sessions db)))
              (Some uid) (new_session new_uuid uid p db_now))
    as [[E [Hr _]] | [e E]].
  - right. split; [exact E|].
    unfold rls_insert_session in Hr. apply andb_true_iff in Hr.
    destruct Hr as [_ Hr]. exact Hr.
  - left. exists e. exact E.
Qed.

(** Case analysis on a run of [startSession], with the run rewritten to
    its value in each case. *)
Ltac startSession_run db user p now db_now new_uuid E :=
  destruct (startSession_cases db user p now db_now new_uuid)
    as [E | [? [_ [_ [[? E] | [E _]]]]]];
  rewrite E; simpl.

Lemma startSession_table db user p now db_now new_uuid :
  table_step (access_sessions db)
    (access_sessions (fst (startSession db user p now db_now new_uuid))).
Proof.
  startSession_run db user p now db_now new_uuid E; constructor.
Qed.

Lemma startSession_frame db user p now db_now new_uuid :
  let db' := fst (startSession db user p now db_now new_uuid) in
  user_roles db' = user_roles db /\ patients db' = patients db
  /\ profiles db' = profiles db /\ audit_logs db' = audit_logs db.
Proof.
  startSession_run db user p now db_now new_uuid E; auto.
Qed.

Lemma start_and_navigate_fst db user p now db_now new_uuid :
  fst (start_and_navigate db user p now db_now new_uuid)
  = fst (startSession db user p now db_now new_uuid).
Proof.
  unfold start_and_navigate.
  destruct (startSession db user p now db_now new_uuid) as [db' [s|e]]; reflexivity.
Qed.

Lemma resolve_tag_table db user scannedId rp pu su now db_now :
  table_step (access_sessions db)
    (access_sessions (fst (resolve_tag db user scannedId rp pu su now db_now))).
Proof.
  unfold resolve_tag.
  destruct (find_patient db scannedId) as [[ex|]|e]; simpl.
  - rewrite start_and_navigate_fst. apply startSession_table.
  - unfold insert_patient.
    destruct (existsb (fun p => String.eqb (pat_id p) pu) (patients db)); simpl.
    + constructor.
    + rewrite start_and_navigate_fst.
      apply (startSession_table
               (with_patients db
                  (patients db ++ [mkPatient pu (set_caretag_id rp scannedId)]))).
  - constructor.
Qed.

Lemma processScannedId_table db user sp processing tag rp pu su now db_now :
  table_step (access_sessions db)
    (access_sessions
       (fst (processScannedId db user sp processing tag rp pu su now db_now))).
Proof.
  unfold processScannedId.
  destruct processing; [constructor|].
  destruct (expectedCaretagId sp) as [expected|].
  - destruct (negb (String.eqb (toUpperCase (trim tag)) expected)); [constructor|].
    destruct (expectedPatientId sp) as [pid|].
    + rewrite start_and_navigate_fst. apply startSession_table.
    + apply resolve_tag_table.
  - apply resolve_tag_table.
Qed.

(** What the single requests leave as they find it. *)
Lemma insertSession_frame db (uid p : uuid) db_now new_uuid :
  let db' := fst (insertSession db uid p db_now new_uuid) in
  user_roles db' = user_roles db /\ patients db' = patients db
  /\ profiles db' = profiles db /\ audit_logs db' = audit_logs db.
Proof.
  unfold insertSession.
  destruct (insert_session_cases db (Some uid) (new_session new_uuid uid p db_now))
    as [[E _] | [e E]]; rewrite E; simpl; auto.
Qed.

Lemma insert_patient_frame db new_uuid d :
  let db' := fst (insert_patient db new_uuid d) in
  user_roles db' = user_roles db /\ access_sessions db' = access_sessions db
  /\ profiles db' = profiles db /\ audit_logs db' = audit_logs db.
Proof.
  unfold insert_patient.
  destruct (existsb (fun p => String.eqb (pat_id p) new_uuid) (patients db)); simpl; auto.
Qed.

Lemma updateVerificationMutation_frame db auth ue pv ia doctorId st reason :
  let db' := fst (updateVerificationMutation db auth ue pv ia doctorId st reason) in
  user_roles db' = user_roles db /\ access_sessions db' = access_sessions db
  /\ patients db' = patients db.
Proof.
  unfold updateVerificationMutation.
  destruct ue as [e|]; [simpl; auto|]. destruct ia; simpl; auto.
Qed.

(** Every step acts on the session table in one of the five ways. *)
Lemma step_table db db' :
  step db db' -> table_step (access_sessions db) (access_sessions db').
Proof.
  intros [NEW|auth target now|auth target now|user p now db_now new_uuid
         |auth sid n now|user sp pr tag rp pu su now db_now
         |uid now T|uid p db_now new_uuid T|new_uuid d
         |auth ue pv ia doctorId st reason].
  - constructor.
  - unfold promote_to_admin.
    destruct (negb (has_role db auth admin)); simpl; constructor.
  - unfold demote_from_admin.
    destruct (negb (has_role db auth admin)); simpl; [constructor|].
    destruct (is_uid target auth); simpl; constructor.
  - apply startSession_table.
  - simpl. constructor.
  - apply processScannedId_table.
  - simpl. constructor.
  - unfold insertSession.
    destruct (insert_session_cases db (Some uid) (new_session new_uuid uid p db_now))
      as [[E _] | [e E]]; rewrite E; simpl; constructor.
  - destruct (insert_patient_frame db new_uuid d) as [_ [E _]]. simpl in E.
    rewrite E. constructor.
  - destruct (updateVerificationMutation_frame db auth ue pv ia doctorId st reason)
      as [_ [E _]].
    simpl in E. rewrite E. constructor.
Qed.

Lemma reachable_active_open db :
  reachable db ->
  forall s, In s (access_sessions db) -> status s = active -> ended_at s = None.
Proof.
  induction 1 as [db0 H0 | db db' _ IH Hstep].
  - rewrite H0. intros s [].
  - apply (table_step_active_open _ _ (step_table _ _ Hstep)). exact IH.
Qed.

Lemma reachable_never_expired db :
  reachable db -> forall s, In s (access_sessions db) -> status s <> expired.
Proof.
  induction 1 as [db0 H0 | db db' _ IH Hstep].
  - rewrite H0. intros s [].
  - apply (table_step_never_expired _ _ (step_table _ _ Hstep)). exact IH.
Qed.

Lemma existsb_id_close auth uid now new_uuid l :
  existsb (fun s' => String.eqb (id s') new_uuid) (map (close_if_active auth uid now) l)
  = existsb (fun s' => String.eqb (id s') new_uuid) l.
Proof.
  induction l as [|a l IH]; simpl; [reflexivity|].
  rewrite IH, close_if_active_id. reflexivity.
Qed.

(** The insert that succeeds. *)
Lemma insert_session_accepted db (uid : uuid) s :
  doctor_id s = uid ->
  has_role db (Some uid) doctor = true ->
  existsb (fun s' => String.eqb (id s') (id s)) (access_sessions db) = false ->
  existsb (fun q => String.eqb (pat_id q) (patient_id s)) (patients db) = true ->
  insert_session db (Some uid) s = (with_sessions db (access_sessions db ++ [s]), Ok s).
Proof.
  intros Hd R F P. unfold insert_session, rls_insert_session. simpl.
  rewrite Hd, String.eqb_refl, R, F, P. reflexivity.
Qed.

(** Two overlapping calls: the state they leave is one the application
    reaches, and when both inserts are accepted the table is the old one
    with the doctor's active sessions closed, followed by the two new
    rows. *)
Lemma startSession_overlapped_reachable db (uid p1 : uuid) now1 db_now1 k1
    (p2 : uuid) now2 db_now2 k2 :
  truthy (Some uid) = true -> reachable db ->
  reachable (fst (startSession_overlapped db uid p1 now1 db_now1 k1 p2 now2 db_now2 k2)).
Proof.
  intros T R. unfold startSession_overlapped. cbn [fst].
  eapply reachable_step; [|apply step_insertSession; exact T].
  eapply reachable_step; [|apply step_insertSession; exact T].
  eapply reachable_step; [|apply step_closeActiveSessions; exact T].
  eapply reachable_step; [exact R|apply step_closeActiveSessions; exact T].
Qed.

Lemma startSession_overlapped_table db (uid p1 : uuid) now1 db_now1 k1
    (p2 : uuid) now2 db_now2 k2 s1 s2 :
  snd (startSession_overlapped db uid p1 now1 db_now1 k1 p2 now2 db_now2 k2)
  = (Ok s1, Ok s2) ->
  s1 = new_session k1 uid p1 db_now1 /\ s2 = new_session k2 uid p2 db_now2
  /\ access_sessions
       (fst (startSession_overlapped db uid p1 now1 db_now1 k1 p2 now2 db_now2 k2))
     = map (close_if_active (Some uid) uid now2)
         (map (close_if_active (Some uid) uid now1) (access_sessions db))
       ++ [s1; s2].
Proof.
  unfold startSession_overlapped, insertSession. cbn [fst snd].
  set (db2 := closeActiveSessions (closeActiveSessions db uid now1) uid now2).
  destruct (insert_session_cases db2 (Some uid) (new_session k1 uid p1 db_now1))
    as [[E1 _] | [e E1]]; rewrite E1; cbn [fst snd]; [|intros H; discriminate H].
  match goal with
  | |- context [insert_session ?d (Some uid) (new_session k2 uid p2 db_now2)] =>
      destruct (insert_session_cases d (Some uid) (new_session k2 uid p2 db_now2))
        as [[E2 _] | [e E2]]; rewrite E2; cbn [fst snd]; [|intros H; discriminate H]
  end.
  intros H. injection H as <- <-. split; [reflexivity|]. split; [reflexivity|].
  simpl. rewrite <- app_assoc. reflexivity.
Qed.

(** C1. A call of [startSession] that no other request interrupts does
    what the claim says: a call that returns a session has first
    replaced every active session of that doctor by the same row with
    status completed and end timestamp [now], has left every other row
    as it was, and has then added the returned row; afterwards the
    doctor's active sessions are exactly the returned session, whose
    patient is the one asked for. A signed-in doctor gets this result
    whenever the patient exists and the generated key is new. The
    invariant does not hold in every state the application reaches: the
    hook sends the update and the insert as two requests, and when two
    calls of one doctor overlap so that both updates arrive before both
    inserts, both calls return a session whenever each alone would, and
    the doctor is left with two active sessions, each usable for its
    patient. With [dr-a] in the small clinic that is the case. *)
Theorem startSession_not_atomic :
  (forall db user p now db_now new_uuid db' s,
        startSession db user p now db_now new_uuid = (db', Ok s) ->
        exists uid,
          user = Some uid
          /\ access_sessions db'
             = map (fun s0 => if active_of uid s0
                              then closed_at now (notes s0) s0 else s0)
                   (access_sessions db) ++ [s]
          /\ s = new_session new_uuid uid p db_now
          /\ active_sessions_of db' uid = [s]
          /\ doctor_id s = uid /\ patient_id s = p /\ status s = active)
  /\ (forall db uid p now db_now new_uuid,
        truthy (Some uid) = true ->
        has_role db (Some uid) doctor = true ->
        existsb (fun q => String.eqb (pat_id q) p) (patients db) = true ->
        existsb (fun s' => String.eqb (id s') new_uuid) (access_sessions db) = false ->
        snd (startSession db (Some uid) p now db_now new_uuid)
        = Ok (new_session new_uuid uid p db_now))
  /\ (forall db (uid p1 : uuid) now1 db_now1 k1 (p2 : uuid) now2 db_now2 k2,
        truthy (Some uid) = true ->
        let run := startSession_overlapped db uid p1 now1 db_now1 k1
                     p2 now2 db_now2 k2 in
        (reachable db -> reachable (fst run))
        /\ (has_role db (Some uid) doctor = true ->
            existsb (fun q => String.eqb (pat_id q) p1) (patients db) = true ->
            existsb (fun q => String.eqb (pat_id q) p2) (patients db) = true ->
            existsb (fun s' => String.eqb (id s') k1) (access_sessions db) = false ->
            existsb (fun s' => String.eqb (id s') k2) (access_sessions db) = false ->
            k1 <> k2 ->
            snd run = (Ok (new_session k1 uid p1 db_now1),
                       Ok (new_session k2 uid p2 db_now2)))
        /\ (forall s1 s2, snd run = (Ok s1, Ok s2) ->
              active_sessions_of (fst run) uid = [s1; s2]
              /\ patient_id s1 = p1 /\ patient_id s2 = p2
              /\ (forall now', has_active_session (fst run) now' (Some uid) p1 = true
                               /\ has_active_session (fst run) now' (Some uid) p2 = true)))
  /\ (reachable (fst overlapped)
      /\ snd overlapped = (Ok (new_session "ses-2" "dr-a" "pat-2" 22),
                           Ok (new_session "ses-3" "dr-a" "pat-1" 23))
      /\ active_sessions_of (fst overlapped) "dr-a"
         = [new_session "ses-2" "dr-a" "pat-2" 22; new_session "ses-3" "dr-a" "pat-1" 23]
      /\ map status (access_sessions (fst overlapped)) = [completed; active; active]).
Proof.
  split; [|split; [|split]].
  - intros db user p now db_now new_uuid db' s H.
    destruct (startSession_cases db user p now db_now new_uuid)
      as [E | [uid [Hu [_ [[e E] | [E _]]]]]]; rewrite E in H; try discriminate.
    injection H as <- <-. exists uid. split; [exact Hu|].
    assert (M : map (close_if_active (Some uid) uid now) (access_sessions db)
                = map (fun s0 => if active_of uid s0
                                 then closed_at now (notes s0) s0 else s0)
                      (access_sessions db)).
    { apply map_ext. intros a. apply close_if_active_own. }
    simpl. split; [rewrite M; reflexivity|]. split; [reflexivity|].
    split; [|auto].
    unfold active_sessions_of. simpl. apply active_after_start.
  - intros db uid p now db_now new_uuid T R P F.
    unfold startSession. rewrite T. simpl.
    unfold insert_session, rls_insert_session. simpl.
    rewrite String.eqb_refl. unfold has_role in *. simpl in *. rewrite R. simpl.
    rewrite P. simpl.
    assert (F' : existsb (fun s' => String.eqb (id s') new_uuid)
                   (map (close_if_active (Some uid) uid now) (access_sessions db))
                 = false).
    { rewrite <- F. clear. induction (access_sessions db) as [|a l IH]; simpl;
        [reflexivity|].
      rewrite IH, close_if_active_id. reflexivity. }
    rewrite F'. reflexivity.
  - intros db uid p1 now1 db_now1 k1 p2 now2 db_now2 k2 T run.
    split; [|split].
    + apply startSession_overlapped_reachable. exact T.
    + intros R P1 P2 F1 F2 Hk. unfold run, startSession_overlapped, insertSession.
      cbn [fst snd].
      set (db2 := closeActiveSessions (closeActiveSessions db uid now1) uid now2).
      assert (R2 : has_role db2 (Some uid) doctor = true) by exact R.
      rewrite (insert_session_accepted db2 uid (new_session k1 uid p1 db_now1) eq_refl R2).
      * cbn [fst snd].
        set (db3 := with_sessions db2
                      (access_sessions db2 ++ [new_session k1 uid p1 db_now1])).
        assert (R3 : has_role db3 (Some uid) doctor = true) by exact R.
        rewrite (insert_session_accepted db3 uid (new_session k2 uid p2 db_now2)
                   eq_refl R3).
        -- reflexivity.
        -- simpl. rewrite existsb_app, !existsb_id_close, F2. simpl.
           apply String.eqb_neq in Hk. rewrite Hk. reflexivity.
        -- exact P2.
      * simpl. rewrite !existsb_id_close. exact F1.
      * exact P1.
    + intros s1 s2 H.
      destruct (startSession_overlapped_table db uid p1 now1 db_now1 k1 p2 now2 db_now2
                  k2 s1 s2 H) as [E1 [E2 Et]].
      fold run in Et.
      assert (A : active_sessions_of (fst run) uid = [s1; s2]).
      { unfold active_sessions_of. rewrite Et, filter_app.
        rewrite (filter_none (active_of uid)).
        - subst s1 s2. simpl. rewrite String.eqb_refl. reflexivity.
        - intros x Hx. apply in_map_iff in Hx. destruct Hx as [s0 [<- _]].
          apply active_of_close_own. }
      split; [exact A|]. split; [subst s1; reflexivity|].
      split; [subst s2; reflexivity|].
      intros now'. split; apply has_active_session_iff.
      * exists s1. split; [rewrite Et; apply in_or_app; right; left; reflexivity|].
        subst s1. unfold Usable. simpl. auto.
      * exists s2. split; [rewrite Et; apply in_or_app; right; right; left; reflexivity|].
        subst s2. unfold Usable. simpl. auto.
  - split; [|repeat split; reflexivity].
    apply startSession_overlapped_reachable; [reflexivity|].
    exact (proj1 (proj2 clinic_reachable)).
Qed.

Lemma startSession_not_atomic_witness :
  active_sessions_of clinic4 "dr-a" = [new_session "ses-2" "dr-a" "pat-2" 21]
  /\ snd (startSession clinic2 (Some "dr-a") "pat-2" 20 21 "ses-2")
     = Ok (new_session "ses-2" "dr-a" "pat-2" 21)
  /\ reachable (fst overlapped)
  /\ List.length (active_sessions_of (fst overlapped) "dr-a") = 2%nat.
Proof.
  destruct startSession_not_atomic as [H2 [H3 [H4 _]]].
  split; [|split; [|split]].
  - destruct (H2 clinic2 (Some "dr-a") "pat-2" 20 21 "ses-2" clinic4
                (new_session "ses-2" "dr-a" "pat-2" 21) eq_refl)
      as [uid [Hu [_ [_ [Ha _]]]]].
    injection Hu as <-. exact Ha.
  - apply H3; reflexivity.
  - destruct (H4 clinic2 "dr-a" "pat-2" 20 22 "ses-2" "pat-1" 21 23 "ses-3" eq_refl)
      as [R _].
    apply R. exact (proj1 (proj2 clinic_reachable)).
  - destruct (H4 clinic2 "dr-a" "pat-2" 20 22 "ses-2" "pat-1" 21 23 "ses-3" eq_refl)
      as [_ [_ A]].
    destruct (A (new_session "ses-2" "dr-a" "pat-2" 22)
                (new_session "ses-3" "dr-a" "pat-1" 23) eq_refl) as [E _].
    unfold overlapped. rewrite E. reflexivity.
Defined.

(** C3 fails as stated: for a session that is active with an end
    timestamp in the future, the server-side predicate says yes and the
    client-side query finds nothing. *)
Lemma active_query_counterexample :
  Usable 50 timed_session
  /\ has_active_session timed_db 50 (Some "dr-a") "pat-1" = true
  /\ activeSessionQuery timed_db (Some "dr-a") (Some "pat-1") = Ok None
  /\ hasActiveSession timed_db (Some "dr-a") (Some "pat-1") = false.
Proof.
  split; [|repeat split; reflexivity].
  split; [reflexivity|]. right. exists 100. split; [reflexivity | lia].
Qed.

Lemma filter_length_le_implied {A} (P Q : A -> bool) (l : list A) :
  (forall x, P x = true -> Q x = true) ->
  (List.length (filter P l) <= List.length (filter Q l))%nat.
Proof.
  intros H. induction l as [|x l IH]; simpl; [lia|].
  destruct (P x) eqn:E.
  - rewrite (H x E). simpl. lia.
  - destruct (Q x); simpl; lia.
Qed.

Lemma active_query_filter_iff (d p : uuid) s :
  active_query_filter d p s = true <->
  doctor_id s = d /\ patient_id s = p /\ status s = active /\ ended_at s = None.
Proof.
  unfold active_query_filter.
  rewrite !andb_true_iff, !String.eqb_eq, session_status_eqb_eq.
  destruct (ended_at s); intuition congruence.
Qed.

(** The select policy never hides a row the active-session query asks
    for. *)
Lemma active_query_rows db (d p : uuid) :
  filter (active_query_filter d p)
    (filter (rls_select_session db (Some d)) (access_sessions db))
  = filter (active_query_filter d p) (access_sessions db).
Proof.
  apply filter_filter_implied. intros s H.
  apply active_query_filter_iff in H. destruct H as [Hd _].
  unfold rls_select_session. simpl. rewrite Hd, String.eqb_refl. reflexivity.
Qed.

Lemma activeSessionQuery_rows db (d p : uuid) :
  truthy (Some d) = true -> truthy (Some p) = true ->
  activeSessionQuery db (Some d) (Some p)
  = maybeSingle (filter (active_query_filter d p) (access_sessions db)).
Proof.
  intros Td Tp. unfold activeSessionQuery. rewrite Td, Tp. simpl.
  rewrite active_query_rows. reflexivity.
Qed.

Lemma activeSessionQuery_found db user patientId s :
  activeSessionQuery db user patientId = Ok (Some s) ->
  exists d p, user = Some d /\ patientId = Some p
              /\ filter (active_query_filter d p) (access_sessions db) = [s].
Proof.
  unfold activeSessionQuery.
  destruct (negb (truthy patientId) || negb (truthy user)); [discriminate|].
  destruct user as [d|]; [|discriminate].
  destruct patientId as [p|]; [|discriminate].
  rewrite active_query_rows.
  destruct (filter (active_query_filter d p) (access_sessions db)) as [|x [|y l]]
    eqn:EL; simpl; intros H; try discriminate H.
  injection H as ->. exists d, p. auto.
Qed.

Lemma maybeSingle_none {A} (l : list A) : maybeSingle l = Ok None <-> l = [].
Proof.
  destruct l as [|x [|y l]]; simpl; split; intros H; try discriminate H; reflexivity.
Qed.

Lemma maybeSingle_one {A} (l : list A) a : maybeSingle l = Ok (Some a) <-> l = [a].
Proof.
  destruct l as [|x [|y l]]; simpl; split; intros H; try discriminate H.
  - injection H as ->. reflexivity.
  - injection H as ->. reflexivity.
Qed.

Lemma filter_nil_iff {A} (P : A -> bool) (l : list A) :
  filter P l = [] <-> forall x, In x l -> P x = false.
Proof.
  split; [|apply filter_none].
  intros H x Hin. destruct (P x) eqn:E; [|reflexivity].
  assert (Hf : In x (filter P l)) by (apply filter_In; auto).
  rewrite H in Hf. destruct Hf.
Qed.

(** C3, as the code has it. The server-side predicate holds exactly when
    the table has a session of that doctor and patient with status active
    and an end timestamp that is unset or in the future. The client-side
    query selects the sessions of that doctor and patient with status
    active and no end timestamp: it returns none exactly when there is
    no such session, and a session exactly when that session is the only
    one; a session it returns is usable. In every state the application
    reaches, where an active session never has an end timestamp, the
    query returns none exactly when the server-side predicate is false;
    and when the doctor has at most one active session there, the query
    returns without error and finds a session exactly when the
    server-side predicate holds. *)
Theorem active_session_predicates :
  forall db now (d p : uuid),
    (has_active_session db now (Some d) p = true <->
     exists s, In s (access_sessions db) /\ doctor_id s = d /\ patient_id s = p
               /\ Usable now s)
    /\ (forall s, active_query_filter d p s = true <->
          doctor_id s = d /\ patient_id s = p /\ status s = active /\ ended_at s = None)
    /\ (truthy (Some d) = true -> truthy (Some p) = true ->
        (activeSessionQuery db (Some d) (Some p) = Ok None <->
         forall s, In s (access_sessions db) -> active_query_filter d p s = false)
        /\ (forall s, activeSessionQuery db (Some d) (Some p) = Ok (Some s) <->
              filter (active_query_filter d p) (access_sessions db) = [s]))
    /\ (forall s, activeSessionQuery db (Some d) (Some p) = Ok (Some s) ->
          In s (access_sessions db) /\ doctor_id s = d /\ patient_id s = p
          /\ status s = active /\ ended_at s = None /\ Usable now s)
    /\ (reachable db -> truthy (Some d) = true -> truthy (Some p) = true ->
        (activeSessionQuery db (Some d) (Some p) = Ok None <->
         has_active_session db now (Some d) p = false)
        /\ (forall s, activeSessionQuery db (Some d) (Some p) = Ok (Some s) ->
              has_active_session db now (Some d) p = true)
        /\ ((List.length (active_sessions_of db d) <= 1)%nat ->
            (exists r, activeSessionQuery db (Some d) (Some p) = Ok r)
            /\ hasActiveSession db (Some d) (Some p)
               = has_active_session db now (Some d) p)).
Proof.
  intros db now d p.
  assert (Sound : forall s, activeSessionQuery db (Some d) (Some p) = Ok (Some s) ->
            In s (access_sessions db) /\ doctor_id s = d /\ patient_id s = p
            /\ status s = active /\ ended_at s = None /\ Usable now s).
  { intros s H. apply activeSessionQuery_found in H.
    destruct H as [d' [p' [Hd [Hp HL]]]]. injection Hd as <-. injection Hp as <-.
    assert (Hin : In s (filter (active_query_filter d p) (access_sessions db)))
      by (rewrite HL; left; reflexivity).
    apply filter_In in Hin. destruct Hin as [Hin Hf].
    apply active_query_filter_iff in Hf. destruct Hf as [Hd [Hp [Hs He]]].
    unfold Usable. repeat split; auto. }
  assert (Server : forall x, In x (access_sessions db) ->
            active_query_filter d p x = true ->
            has_active_session db now (Some d) p = true).
  { intros x Hin Hf. apply active_query_filter_iff in Hf.
    destruct Hf as [Hd [Hp [Hs He]]]. apply has_active_session_iff.
    exists x. unfold Usable. repeat split; auto. congruence. }
  split; [|split; [|split; [|split]]].
  - rewrite has_active_session_iff. split; intros [s [Hin [Hd [Hp Hu]]]]; exists s.
    + injection Hd as Hd. auto.
    + subst d. auto.
  - intros s. apply active_query_filter_iff.
  - intros Td Tp. rewrite (activeSessionQuery_rows db d p Td Tp). split.
    + rewrite maybeSingle_none. apply filter_nil_iff.
    + intros s. apply maybeSingle_one.
  - exact Sound.
  - intros R Td Tp.
    pose proof (reachable_active_open db R) as H2.
    assert (None_iff : activeSessionQuery db (Some d) (Some p) = Ok None <->
                       has_active_session db now (Some d) p = false).
    { rewrite (activeSessionQuery_rows db d p Td Tp), maybeSingle_none, filter_nil_iff.
      split.
      - intros H. destruct (has_active_session db now (Some d) p) eqn:E; [|reflexivity].
        apply has_active_session_iff in E.
        destruct E as [s [Hin [Hd [Hp [Hs Hu]]]]]. injection Hd as Hd.
        assert (Hf : active_query_filter d p s = true).
        { apply active_query_filter_iff. repeat split; auto. }
        rewrite (H s Hin) in Hf. discriminate Hf.
      - intros H x Hin. destruct (active_query_filter d p x) eqn:E; [|reflexivity].
        rewrite (Server x Hin E) in H. discriminate H. }
    split; [exact None_iff|]. split.
    + intros s H. destruct (Sound s H) as [Hin [Hd [Hp [Hs [He _]]]]].
      apply (Server s Hin). apply active_query_filter_iff. auto.
    + intros H1. unfold hasActiveSession.
      destruct (activeSessionQuery db (Some d) (Some p)) as [[s|]|e] eqn:Q.
      * split; [eauto|]. symmetry.
        destruct (Sound s eq_refl) as [Hin [Hd [Hp [Hs [He _]]]]].
        apply (Server s Hin). apply active_query_filter_iff. auto.
      * split; [eauto|]. symmetry. apply None_iff. reflexivity.
      * exfalso. rewrite (activeSessionQuery_rows db d p Td Tp) in Q.
        assert (Hle : (List.length (filter (active_query_filter d p) (access_sessions db))
                       <= 1)%nat).
        { etransitivity; [|exact H1]. apply filter_length_le_implied.
          intros x Hx. apply active_query_filter_iff in Hx.
          destruct Hx as [Hd [_ [Hs _]]].
          rewrite Hd, Hs, String.eqb_refl. reflexivity. }
        destruct (filter (active_query_filter d p) (access_sessions db))
          as [|x [|y l]]; simpl in Hle, Q; try discriminate Q. lia.
Qed.

Lemma active_session_predicates_witness :
  hasActiveSession clinic4 (Some "dr-a") (Some "pat-2")
  = has_active_session clinic4 30 (Some "dr-a") "pat-2"
  /\ hasActiveSession clinic4 (Some "dr-a") (Some "pat-2") = true
  /\ has_active_session clinic4 30 (Some "dr-a") "pat-1" = false.
Proof.
  assert (R : reachable clinic4)
    by (eapply reachable_step; [exact (proj1 (proj2 clinic_reachable)) | constructor]).
  destruct (active_session_predicates clinic4 30 "dr-a" "pat-2") as [_ [_ [_ [_ H]]]].
  destruct (H R eq_refl eq_refl) as [_ [_ H3]].
  destruct (active_session_predicates clinic4 30 "dr-a" "pat-1") as [_ [_ [_ [_ K]]]].
  destruct (K R eq_refl eq_refl) as [K1 _].
  split; [|split].
  - apply H3. simpl. lia.
  - reflexivity.
  - apply K1. reflexivity.
Defined.

Lemma end_if_id_twice auth sid n1 t1 n2 t2 s :
  end_if_id auth sid n2 t2 (end_if_id auth sid n1 t1 s) = end_if_id auth sid n2 t2 s.
Proof.
  unfold end_if_id at 2.
  destruct (rls_update_session auth s && String.eqb (id s) sid) eqn:E; [|reflexivity].
  unfold end_if_id, rls_update_session in *. simpl. rewrite E. reflexivity.
Qed.

(** C6 fails as stated: the second call moves the end timestamp (and
    replaces the notes). *)
Lemma endSession_twice_counterexample :
  let first := endSession clinic2 (Some "dr-a") "ses-1" (Some "all fine") 30 in
  let second := endSession (fst first) (Some "dr-a") "ses-1" None 40 in
  snd first = Ok tt /\ snd second = Ok tt
  /\ map ended_at (access_sessions (fst first)) = [Some 30]
  /\ map ended_at (access_sessions (fst second)) = [Some 40]
  /\ map notes (access_sessions (fst first)) = [Some "all fine"]
  /\ map notes (access_sessions (fst second)) = [None].
Proof. repeat split; reflexivity. Qed.

(** C6, as the code has it. Calling [endSession] twice on one id
    succeeds both times, and the database after the second call is the
    database the second call alone would have produced: a session of the
    caller with that id has status completed, the end timestamp of the
    second call and the notes of the second call. Calling it again with
    the same arguments changes nothing. *)
Theorem endSession_twice :
  forall db auth_uid sessionId n1 t1 n2 t2,
    let first := endSession db auth_uid sessionId n1 t1 in
    let second := endSession (fst first) auth_uid sessionId n2 t2 in
    snd first = Ok tt /\ snd second = Ok tt
    /\ fst second = fst (endSession db auth_uid sessionId n2 t2)
    /\ (forall s, In s (access_sessions db) -> id s = sessionId ->
          auth_uid = Some (doctor_id s) ->
          In (closed_at t2 (or_null n2) s) (access_sessions (fst second)))
    /\ fst (endSession (fst first) auth_uid sessionId n1 t1) = fst first.
Proof.
  intros db auth sid n1 t1 n2 t2. simpl.
  assert (T : forall m u,
            map (end_if_id auth sid m u)
              (map (end_if_id auth sid n1 t1) (access_sessions db))
            = map (end_if_id auth sid m u) (access_sessions db)).
  { intros m u. rewrite map_map. apply map_ext. intros s. apply end_if_id_twice. }
  split; [reflexivity|]. split; [reflexivity|]. split; [|split].
  - unfold with_sessions. simpl. rewrite T. reflexivity.
  - intros s Hin Hid Hd. rewrite T. apply in_map_iff. exists s.
    split; [|exact Hin]. subst auth. apply end_if_id_hit; auto.
  - unfold with_sessions. simpl. rewrite T. reflexivity.
Qed.

Lemma endSession_twice_witness :
  In (closed_at 40 None (new_session "ses-1" "dr-a" "pat-1" 10))
     (access_sessions
        (fst (endSession (fst (endSession clinic2 (Some "dr-a") "ses-1" (Some "all fine") 30))
                (Some "dr-a") "ses-1" (Some "") 40))).
Proof.
  destruct (endSession_twice clinic2 (Some "dr-a") "ses-1" (Some "all fine") 30 (Some "") 40)
    as [_ [_ [_ [H _]]]].
  apply (H (new_session "ses-1" "dr-a" "pat-1" 10)); [left|..]; reflexivity.
Defined.

(** C10. When the doctor of a stored session calls [endSession] on its
    id, the row is replaced by the same row with status completed, the
    end timestamp of this call and the notes of this call; every row of
    that doctor with that id then carries these values. With the notes
    left out, or empty, the stored notes become null whatever they
    were. *)
Theorem endSession_overwrites :
  forall db uid sessionId notes_arg now s,
    In s (access_sessions db) -> id s = sessionId -> doctor_id s = uid ->
    let db' := fst (endSession db (Some uid) sessionId notes_arg now) in
    In (closed_at now (or_null notes_arg) s) (access_sessions db')
    /\ (forall s', In s' (access_sessions db') -> id s' = sessionId ->
          doctor_id s' = uid ->
          status s' = completed /\ ended_at s' = Some now
          /\ notes s' = or_null notes_arg)
    /\ (notes_arg = None \/ notes_arg = Some "" ->
        notes (closed_at now (or_null notes_arg) s) = None
        /\ forall s', In s' (access_sessions db') -> id s' = sessionId ->
             doctor_id s' = uid -> notes s' = None).
Proof.
  intros db uid sid n now s Hin Hid Hd. simpl.
  assert (A : forall s', In s' (map (end_if_id (Some uid) sid n now) (access_sessions db)) ->
                id s' = sid -> doctor_id s' = uid ->
                status s' = completed /\ ended_at s' = Some now /\ notes s' = or_null n).
  { intros s' Hin' Hid' Hd'. apply in_map_iff in Hin'.
    destruct Hin' as [s0 [<- Hin0]].
    rewrite end_if_id_id in Hid'. rewrite end_if_id_doctor in Hd'.
    rewrite (end_if_id_hit uid sid n now s0 Hd' Hid'). simpl. auto. }
  split; [|split].
  - apply in_map_iff. exists s. split; [|exact Hin]. apply end_if_id_hit; auto.
  - exact A.
  - intros Hn.
    assert (N : or_null n = None) by (destruct Hn as [-> | ->]; reflexivity).
    split; [exact N|].
    intros s' Hin' Hid' Hd'. rewrite <- N. apply (A s' Hin' Hid' Hd').
Qed.

Lemma endSession_overwrites_witness :
  let noted := fst (endSession clinic2 (Some "dr-a") "ses-1" (Some "all fine") 30) in
  map notes (access_sessions noted) = [Some "all fine"]
  /\ In (closed_at 40 None (closed_at 30 (Some "all fine")
                              (new_session "ses-1" "dr-a" "pat-1" 10)))
        (access_sessions (fst (endSession noted (Some "dr-a") "ses-1" None 40))).
Proof.
  split; [reflexivity|].
  apply (endSession_overwrites
           (fst (endSession clinic2 (Some "dr-a") "ses-1" (Some "all fine") 30))
           "dr-a" "ses-1" None 40
           (closed_at 30 (Some "all fine") (new_session "ses-1" "dr-a" "pat-1" 10)));
    [left|..]; reflexivity.
Defined.

(** C7 fails as stated: [endSession] on an expired session makes it
    completed. *)
Lemma expired_session_counterexample :
  status_of expired_db "ses-8" = [expired]
  /\ snd (endSession expired_db (Some "dr-a") "ses-8" None 50) = Ok tt
  /\ status_of (fst (endSession expired_db (Some "dr-a") "ses-8" None 50)) "ses-8"
     = [completed].
Proof. repeat split; reflexivity. Qed.

Lemma table_step_transitions l l' :
  table_step l l' ->
  exists f extra,
    l' = map f l ++ extra
    /\ (forall s, id (f s) = id s
                  /\ (status (f s) = status s \/ status (f s) = completed))
    /\ (forall s, In s extra -> status s = active).
Proof.
  intros [|auth sid n now|uid now|uid now new_uuid p db_now|uid new_uuid p db_now].
  - exists (fun s => s), []. rewrite map_id, app_nil_r.
    split; [reflexivity|]. split; [auto | intros s []].
  - exists (end_if_id auth sid n now), []. rewrite app_nil_r.
    split; [reflexivity|]. split; [|intros s []].
    intros s. split; [apply end_if_id_id | apply end_if_id_status].
  - exists (close_if_active (Some uid) uid now), []. rewrite app_nil_r.
    split; [reflexivity|]. split; [|intros s []].
    intros s. split; [apply close_if_active_id|].
    destruct (close_if_active_status (Some uid) uid now s) as [E | [_ E]]; auto.
  - exists (close_if_active (Some uid) uid now), [new_session new_uuid uid p db_now].
    split; [reflexivity|]. split.
    + intros s. split; [apply close_if_active_id|].
      destruct (close_if_active_status (Some uid) uid now s) as [E | [_ E]]; auto.
    + intros s [<- | []]. reflexivity.
  - exists (fun s => s), [new_session new_uuid uid p db_now]. rewrite map_id.
    split; [reflexivity|]. split; [auto|].
    intros s [<- | []]. reflexivity.
Qed.

(** C7, as the code has it. Every operation maps each stored session to
    a session with the same id whose status is the old one or completed,
    and adds only active sessions; so a completed session stays
    completed and no operation makes a session expired. [startSession]
    leaves every session that is not active exactly as it was.
    [endSession] by the session's doctor makes the session completed
    whatever its status was. No reachable state holds an expired
    session, so there every change of status is from active to
    completed. *)
Theorem status_transitions :
  (forall db db', step db db' ->
     exists f extra,
       access_sessions db' = map f (access_sessions db) ++ extra
       /\ (forall s, id (f s) = id s
                     /\ (status (f s) = status s \/ status (f s) = completed))
       /\ (forall s, In s extra -> status s = active))
  /\ (forall db user p now db_now new_uuid s,
        In s (access_sessions db) -> status s <> active ->
        In s (access_sessions (fst (startSession db user p now db_now new_uuid))))
  /\ (forall db n now s,
        In s (access_sessions db) ->
        In (closed_at now (or_null n) s)
           (access_sessions (fst (endSession db (Some (doctor_id s)) (id s) n now))))
  /\ (forall db, reachable db ->
        forall s, In s (access_sessions db) -> status s = active \/ status s = completed).
Proof.
  split; [|split; [|split]].
  - intros db db' H. apply table_step_transitions. apply step_table. exact H.
  - intros db user p now db_now new_uuid s Hin Hs.
    assert (K : forall uid, close_if_active (Some uid) uid now s = s).
    { intros uid. rewrite close_if_active_own. unfold active_of.
      destruct (session_status_eqb (status s) active) eqn:E.
      - apply session_status_eqb_eq in E. contradiction.
      - rewrite andb_false_r. reflexivity. }
    startSession_run db user p now db_now new_uuid E.
    + exact Hin.
    + apply in_map_iff. exists s. auto.
    + apply in_or_app. left. apply in_map_iff. exists s. auto.
  - intros db n now s Hin. simpl. apply in_map_iff. exists s.
    split; [|exact Hin]. apply end_if_id_hit; reflexivity.
  - intros db R s Hin. pose proof (reachable_never_expired db R s Hin) as H.
    destruct (status s); auto. contradiction.
Qed.

Lemma status_transitions_witness :
  In expired_session
     (access_sessions (fst (startSession expired_db (Some "dr-a") "pat-1" 50 50 "ses-2")))
  /\ (forall s, In s (access_sessions clinic4) -> status s = active \/ status s = completed).
Proof.
  destruct status_transitions as [_ [H2 [_ H4]]].
  split.
  - apply H2; [left; reflexivity | discriminate].
  - apply H4. eapply reachable_step; [exact (proj1 (proj2 clinic_reachable)) | constructor].
Defined.

(** ** Tag resolution *)

Lemma upper_char_white_space c : is_white_space (upper_char c) = is_white_space c.
Proof. destruct c as [[] [] [] [] [] [] [] []]; reflexivity. Qed.

Lemma upper_char_idem c : upper_char (upper_char c) = upper_char c.
Proof. destruct c as [[] [] [] [] [] [] [] []]; reflexivity. Qed.

Lemma toUpperCase_idem s : toUpperCase (toUpperCase s) = toUpperCase s.
Proof.
  induction s as [|c s IH]; simpl; [reflexivity|].
  rewrite upper_char_idem, IH. reflexivity.
Qed.

Lemma toUpperCase_trimStart s : toUpperCase (trimStart s) = trimStart (toUpperCase s).
Proof.
  induction s as [|c s IH]; simpl; [reflexivity|].
  rewrite upper_char_white_space.
  destruct (is_white_space c); [exact IH | reflexivity].
Qed.

Lemma toUpperCase_trimEnd s : toUpperCase (trimEnd s) = trimEnd (toUpperCase s).
Proof.
  induction s as [|c s IH]; simpl; [reflexivity|].
  rewrite <- IH, upper_char_white_space.
  destruct (trimEnd s) as [|c' kept]; simpl; [|reflexivity].
  destruct (is_white_space c); reflexivity.
Qed.

(** Upper-casing and trimming commute. *)
Lemma toUpperCase_trim s : toUpperCase (trim s) = trim (toUpperCase s).
Proof. unfold trim. rewrite toUpperCase_trimEnd, toUpperCase_trimStart. reflexivity. Qed.

Lemma trimStart_white s : all_white_space s = true -> trimStart s = EmptyString.
Proof.
  induction s as [|c s IH]; simpl; [reflexivity|].
  intros H. apply andb_true_iff in H. destruct H as [Hc Hs].
  rewrite Hc. apply IH. exact Hs.
Qed.

Lemma trimEnd_white s : all_white_space s = true -> trimEnd s = EmptyString.
Proof.
  induction s as [|c s IH]; simpl; [reflexivity|].
  intros H. apply andb_true_iff in H. destruct H as [Hc Hs].
  rewrite (IH Hs), Hc. reflexivity.
Qed.

Lemma trimEnd_app_white s ws :
  all_white_space ws = true -> trimEnd (s ++ ws)%string = trimEnd s.
Proof.
  intros H. induction s as [|c s IH]; simpl.
  - apply trimEnd_white. exact H.
  - rewrite IH. reflexivity.
Qed.

Lemma trimStart_app_white ws s :
  all_white_space ws = true -> trimStart (ws ++ s)%string = trimStart s.
Proof.
  induction ws as [|c ws IH]; simpl; [reflexivity|].
  intros H. apply andb_true_iff in H. destruct H as [Hc Hs].
  rewrite Hc. apply IH. exact Hs.
Qed.

Lemma trim_app_white s ws :
  all_white_space ws = true -> trim (s ++ ws)%string = trim s.
Proof.
  intros H. unfold trim. induction s as [|c s IH]; simpl.
  - rewrite (trimStart_white ws H). reflexivity.
  - destruct (is_white_space c); [exact IH|].
    change (String c (s ++ ws)%string) with (String c s ++ ws)%string.
    apply trimEnd_app_white. exact H.
Qed.

(** White space around a tag does not change what it is trimmed to. *)
Lemma trim_padding ws1 s ws2 :
  all_white_space ws1 = true -> all_white_space ws2 = true ->
  trim (ws1 ++ s ++ ws2)%string = trim s.
Proof.
  intros H1 H2. unfold trim. rewrite (trimStart_app_white ws1 _ H1).
  apply (trim_app_white s ws2 H2).
Qed.

Lemma find_patient_found db scannedId p :
  find_patient db scannedId = Ok (Some p) ->
  In p (patients db) /\ caretag_id (pat_data p) = scannedId.
Proof.
  unfold find_patient.
  destruct (filter (fun q => String.eqb (caretag_id (pat_data q)) scannedId) (patients db))
    as [|x [|y l]] eqn:E; simpl; intros H; try discriminate H.
  injection H as ->.
  assert (Hin : In p (filter (fun q => String.eqb (caretag_id (pat_data q)) scannedId)
                        (patients db))) by (rewrite E; left; reflexivity).
  apply filter_In in Hin. destruct Hin as [Hin Ht].
  apply String.eqb_eq in Ht. auto.
Qed.

Lemma find_patient_none db scannedId :
  find_patient db scannedId = Ok None ->
  forall p, In p (patients db) -> caretag_id (pat_data p) <> scannedId.
Proof.
  unfold find_patient.
  destruct (filter (fun q => String.eqb (caretag_id (pat_data q)) scannedId) (patients db))
    as [|x [|y l]] eqn:E; simpl; intros H; try discriminate H.
  intros p Hin Ht.
  assert (Hf : In p (filter (fun q => String.eqb (caretag_id (pat_data q)) scannedId)
                       (patients db))).
  { apply filter_In. split; [exact Hin|]. apply String.eqb_eq. exact Ht. }
  rewrite E in Hf. destruct Hf.
Qed.

Lemma start_and_navigate_eq db user p now db_now su :
  start_and_navigate db user p now db_now su
  = (fst (startSession db user p now db_now su),
     outcome_of_start p (snd (startSession db user p now db_now su))).
Proof.
  unfold start_and_navigate.
  destruct (startSession db user p now db_now su) as [db' [s|e]]; reflexivity.
Qed.

(** C9 fails as stated: on a page opened for an expected tag, a scan of
    another registered tag is reported as a mismatch, with no lookup and
    no session; and on a page opened for an expected tag and patient id,
    a scan of the expected tag starts the session for the patient id of
    the URL, not for the patient the tag is stored with. *)
Lemma expected_tag_counterexample :
  find_patient clinic1 (toUpperCase (trim " ct-2026-0002 "))
  = Ok (Some (mkPatient "pat-2" (some_patient_data "CT-2026-0002")))
  /\ processScannedId clinic1 (Some "dr-a") expecting_tag false " ct-2026-0002 "
       (some_patient_data "CT-2026-7777") "pat-3" "ses-1" 10 10
     = (clinic1, Mismatch "CT-2026-0002")
  /\ find_patient clinic1 (toUpperCase (trim "ct-2026-0001"))
     = Ok (Some (mkPatient "pat-1" (some_patient_data "CT-2026-0001")))
  /\ processScannedId clinic1 (Some "dr-a") expecting_patient false "ct-2026-0001"
       (some_patient_data "CT-2026-7777") "pat-3" "ses-1" 10 10
     = (fst (startSession clinic1 (Some "dr-a") "pat-2" 10 10 "ses-1"),
        Navigated "pat-2").
Proof. repeat split; reflexivity. Qed.

(** C9, as the code has it, for every scanned string and whatever the
    engine's [trim] and [toUpperCase] do to it. The scanned string is
    trimmed and upper-cased, and nothing else of it is used: two strings
    with the same normalized form are resolved alike. On a page opened
    without an expected tag the normalized string is looked up. On a
    page opened with an expected tag, a scan whose normalized string
    differs from it is reported as a mismatch and the database is left
    alone; a scan that equals it starts the session for the patient id
    of the URL when there is one, and is looked up otherwise. The
    lookup: if it returns a patient, that patient's stored tag equals
    the normalized string and [startSession] is called for that patient;
    if no stored tag equals it (and the generated patient key is new), a
    patient is added whose tag is the normalized string and
    [startSession] is called for the new patient; a failed lookup or
    insert ends in the [catch] block. The page navigates to the patient
    when [startSession] returns a session. On strings of ASCII
    characters, where the functions are [trim] and [toUpperCase] of this
    file, surrounding white space and the case of letters do not change
    the normalized string, which is in upper case. *)
Theorem processScannedId_resolves :
  forall (js_trim js_toUpperCase : string -> string)
         db user sp tag randomPatient patient_uuid session_uuid now db_now,
    let scannedId := js_toUpperCase (js_trim tag) in
    let run := processScannedId_js js_trim js_toUpperCase db user sp false tag
                 randomPatient patient_uuid session_uuid now db_now in
    let lookup := resolve_tag db user scannedId randomPatient patient_uuid session_uuid
                    now db_now in
    (forall tag', js_toUpperCase (js_trim tag') = scannedId ->
       processScannedId_js js_trim js_toUpperCase db user sp false tag'
         randomPatient patient_uuid session_uuid now db_now = run)
    /\ (expectedCaretagId_js js_toUpperCase sp = None -> run = lookup)
    /\ (forall expected,
          expectedCaretagId_js js_toUpperCase sp = Some expected ->
          (scannedId <> expected -> run = (db, Mismatch scannedId))
          /\ (scannedId = expected ->
              (forall patientId, expectedPatientId sp = Some patientId ->
                 run = (fst (startSession db user patientId now db_now session_uuid),
                        outcome_of_start patientId
                          (snd (startSession db user patientId now db_now session_uuid))))
              /\ (expectedPatientId sp = None -> run = lookup)))
    /\ (forall p, find_patient db scannedId = Ok (Some p) ->
          In p (patients db) /\ caretag_id (pat_data p) = scannedId
          /\ lookup = (fst (startSession db user (pat_id p) now db_now session_uuid),
                       outcome_of_start (pat_id p)
                         (snd (startSession db user (pat_id p) now db_now session_uuid))))
    /\ (find_patient db scannedId = Ok None ->
        (forall q, In q (patients db) -> caretag_id (pat_data q) <> scannedId)
        /\ (existsb (fun q => String.eqb (pat_id q) patient_uuid) (patients db) = true ->
            lookup = (db, Failed))
        /\ (existsb (fun q => String.eqb (pat_id q) patient_uuid) (patients db) = false ->
            let newPatient :=
              mkPatient patient_uuid (set_caretag_id randomPatient scannedId) in
            let db1 := with_patients db (patients db ++ [newPatient]) in
            caretag_id (pat_data newPatient) = scannedId
            /\ lookup = (fst (startSession db1 user patient_uuid now db_now session_uuid),
                         outcome_of_start patient_uuid
                           (snd (startSession db1 user patient_uuid now db_now
                                   session_uuid)))))
    /\ (forall e, find_patient db scannedId = Err e -> lookup = (db, Failed))
    /\ processScannedId db user sp false tag randomPatient patient_uuid session_uuid
         now db_now
       = processScannedId_js trim toUpperCase db user sp false tag randomPatient
           patient_uuid session_uuid now db_now
    /\ (forall ws1 ws2, all_white_space ws1 = true -> all_white_space ws2 = true ->
          toUpperCase (trim (ws1 ++ tag ++ ws2)%string) = toUpperCase (trim tag))
    /\ (forall tag', toUpperCase tag' = toUpperCase tag ->
          toUpperCase (trim tag') = toUpperCase (trim tag))
    /\ toUpperCase (toUpperCase (trim tag)) = toUpperCase (trim tag).
Proof.
  intros js_trim js_toUpperCase db user sp tag rp pu su now db_now. cbv zeta.
  split; [|split; [|split; [|split; [|split; [|split; [|split; [|split; [|split]]]]]]]].
  - intros tag' H. unfold processScannedId_js. rewrite H. reflexivity.
  - intros Hexp. unfold processScannedId_js. rewrite Hexp. reflexivity.
  - intros expected Hexp. unfold processScannedId_js. rewrite Hexp. split.
    + intros Hne. apply String.eqb_neq in Hne. rewrite Hne. reflexivity.
    + intros He. apply String.eqb_eq in He. rewrite He. simpl. split.
      * intros pid Hp. rewrite Hp. apply start_and_navigate_eq.
      * intros Hp. rewrite Hp. reflexivity.
  - intros p Hf. destruct (find_patient_found _ _ _ Hf) as [Hin Ht].
    split; [exact Hin|]. split; [exact Ht|].
    unfold resolve_tag. rewrite Hf. apply start_and_navigate_eq.
  - intros Hf. split; [exact (find_patient_none _ _ Hf)|]. split.
    + intros Hpk. unfold resolve_tag. rewrite Hf. unfold insert_patient.
      rewrite Hpk. reflexivity.
    + intros Hpk. split; [reflexivity|].
      unfold resolve_tag. rewrite Hf. unfold insert_patient. rewrite Hpk. simpl.
      apply start_and_navigate_eq.
  - intros e Hf. unfold resolve_tag. rewrite Hf. reflexivity.
  - reflexivity.
  - intros ws1 ws2 H1 H2. rewrite (trim_padding ws1 tag ws2 H1 H2). reflexivity.
  - intros tag' H. rewrite !toUpperCase_trim, H. reflexivity.
  - apply toUpperCase_idem.
Qed.

Lemma processScannedId_resolves_witness :
  processScannedId clinic1 (Some "dr-a") no_expectation false "  ct-2026-0002 "
    (some_patient_data "CT-2026-7777") "pat-3" "ses-1" 10 10
  = (fst (startSession clinic1 (Some "dr-a") "pat-2" 10 10 "ses-1"), Navigated "pat-2")
  /\ map (fun q => caretag_id (pat_data q))
       (patients (fst (processScannedId clinic1 (Some "dr-a") no_expectation false
                         " ct-2026-0009" (some_patient_data "CT-2026-7777")
                         "pat-3" "ses-1" 10 10)))
     = ["CT-2026-0001"; "CT-2026-0002"; "CT-2026-0009"]
  /\ processScannedId clinic1 (Some "dr-a") expecting_tag false " ct-2026-0002 "
       (some_patient_data "CT-2026-7777") "pat-3" "ses-1" 10 10
     = (clinic1, Mismatch "CT-2026-0002")
  /\ processScannedId clinic1 (Some "dr-a") expecting_patient false "ct-2026-0001"
       (some_patient_data "CT-2026-7777") "pat-3" "ses-1" 10 10
     = (fst (startSession clinic1 (Some "dr-a") "pat-2" 10 10 "ses-1"),
        Navigated "pat-2").
Proof.
  split; [|split; [|split]].
  - destruct (processScannedId_resolves trim toUpperCase clinic1 (Some "dr-a")
                no_expectation "  ct-2026-0002 " (some_patient_data "CT-2026-7777")
                "pat-3" "ses-1" 10 10) as [_ [H [_ [K [_ [_ [B _]]]]]]].
    rewrite B, (H eq_refl).
    destruct (K (mkPatient "pat-2" (some_patient_data "CT-2026-0002")) eq_refl)
      as [_ [_ E]].
    exact E.
  - destruct (processScannedId_resolves trim toUpperCase clinic1 (Some "dr-a")
                no_expectation " ct-2026-0009" (some_patient_data "CT-2026-7777")
                "pat-3" "ses-1" 10 10) as [_ [H [_ [_ [K [_ [B _]]]]]]].
    rewrite B, (H eq_refl).
    destruct (K eq_refl) as [_ [_ N]]. destruct (N eq_refl) as [_ E].
    rewrite E. reflexivity.
  - destruct (processScannedId_resolves trim toUpperCase clinic1 (Some "dr-a")
                expecting_tag " ct-2026-0002 " (some_patient_data "CT-2026-7777")
                "pat-3" "ses-1" 10 10) as [_ [_ [H [_ [_ [_ [B _]]]]]]].
    rewrite B.
    destruct (H "CT-2026-0001" eq_refl) as [M _].
    apply M. discriminate.
  - destruct (processScannedId_resolves trim toUpperCase clinic1 (Some "dr-a")
                expecting_patient "ct-2026-0001" (some_patient_data "CT-2026-7777")
                "pat-3" "ses-1" 10 10) as [_ [_ [H [_ [_ [_ [B _]]]]]]].
    rewrite B.
    destruct (H "CT-2026-0001" eq_refl) as [_ M].
    destruct (M eq_refl) as [N _].
    apply (N "pat-2" eq_refl).
Defined.

(** * Further properties of the session lifecycle *)

Lemma with_sessions_same db : with_sessions db (access_sessions db) = db.
Proof. destruct db; reflexivity. Qed.

Lemma truthy_Some (user : option uuid) :
  truthy user = true -> exists uid : uuid, user = Some uid.
Proof. destruct user as [uid|]; [eauto | discriminate]. Qed.

(** The value of [startSession] for a signed-in user, by the checks of
    the insert. *)
Lemma startSession_signed_in db (uid : uuid) p now db_now new_uuid :
  truthy (Some uid) = true ->
  startSession db (Some uid) p now db_now new_uuid
  = insert_session
      (with_sessions db (map (close_if_active (Some uid) uid now) (access_sessions db)))
      (Some uid) (new_session new_uuid uid p db_now).
Proof. intros T. unfold startSession. rewrite T. reflexivity. Qed.


(** X1. [startSession] returns a session exactly when somebody is signed in,
    that user has the doctor role, the generated key is not in the table
    and the patient exists. *)
Theorem startSession_succeeds_iff :
  forall db user p now db_now new_uuid,
    (exists s, snd (startSession db user p now db_now new_uuid) = Ok s)
    <-> (truthy user = true
         /\ has_role db user doctor = true
         /\ existsb (fun s' => String.eqb (id s') new_uuid) (access_sessions db) = false
         /\ existsb (fun q => String.eqb (pat_id q) p) (patients db) = true).
Proof.
  intros db user p now db_now new_uuid. split.
  - intros [s H].
    destruct (truthy user) eqn:T.
    + destruct (truthy_Some user T) as [uid ->].
      rewrite (startSession_signed_in db uid p now db_now new_uuid T) in H.
      destruct (insert_session_cases
                  (with_sessions db
                     (map (close_if_active (Some uid) uid now) (access_sessions db)))
                  (Some uid) (new_session new_uuid uid p db_now))
        as [[E [Hr [Hk Hp]]] | [e E]]; rewrite E in H; [|discriminate H].
      split; [reflexivity|].
      unfold rls_insert_session in Hr. apply andb_true_iff in Hr. destruct Hr as [_ Hr].
      simpl in Hk. rewrite existsb_id_close in Hk. auto.
    + unfold startSession in H. rewrite T in H. discriminate H.
  - intros [T [R [K P]]]. destruct (truthy_Some user T) as [uid ->].
    rewrite (startSession_signed_in db uid p now db_now new_uuid T).
    exists (new_session new_uuid uid p db_now).
    unfold insert_session, rls_insert_session. simpl.
    rewrite String.eqb_refl, existsb_id_close, K. unfold has_role in *. simpl in *.
    rewrite R, P. reflexivity.
Qed.



Lemma close_if_active_other auth uid now s :
  doctor_id s <> uid -> close_if_active auth uid now s = s.
Proof.
  intros H. unfold close_if_active.
  apply String.eqb_neq in H. rewrite H, andb_false_r. reflexivity.
Qed.

Lemma end_if_id_other auth sid n now s :
  auth <> Some (doctor_id s) -> end_if_id auth sid n now s = s.
Proof.
  intros H. unfold end_if_id, rls_update_session.
  destruct (is_uid (doctor_id s) auth) eqn:E; [|reflexivity].
  apply is_uid_true in E. contradiction.
Qed.

Lemma filter_map_fixed {A} (P : A -> bool) (f : A -> A) (l : list A) :
  (forall x, P (f x) = P x) -> (forall x, P x = true -> f x = x) ->
  filter P (map f l) = filter P l.
Proof.
  intros HP Hf. induction l as [|x l IH]; simpl; [reflexivity|].
  rewrite HP. destruct (P x) eqn:E; [|exact IH].
  rewrite (Hf x E), IH. reflexivity.
Qed.

(** X3. A doctor's calls never change another doctor's sessions: for every
    doctor other than the caller, the rows of that doctor are the same
    before and after [startSession] and [endSession]. *)
Theorem other_doctors_sessions_untouched :
  forall db user (d : uuid),
    user <> Some d ->
    (forall p now db_now new_uuid,
       sessions_of (fst (startSession db user p now db_now new_uuid)) d = sessions_of db d)
    /\ (forall sessionId notes_arg now,
          sessions_of (fst (endSession db user sessionId notes_arg now)) d
          = sessions_of db d).
Proof.
  intros db user d Hne. split.
  - intros p now db_now new_uuid.
    assert (K : forall (uid : uuid), user = Some uid ->
              filter (fun s => String.eqb (doctor_id s) d)
                (map (close_if_active (Some uid) uid now) (access_sessions db))
              = filter (fun s => String.eqb (doctor_id s) d) (access_sessions db)).
    { intros uid Hu. apply filter_map_fixed.
      - intros x. rewrite close_if_active_doctor. reflexivity.
      - intros x Hx. apply String.eqb_eq in Hx. apply close_if_active_other.
        intros E. apply Hne. congruence. }
    unfold sessions_of.
    destruct (startSession_cases db user p now db_now new_uuid)
      as [E | [uid [Hu [_ [[e E] | [E _]]]]]]; rewrite E; simpl.
    + reflexivity.
    + apply K. exact Hu.
    + rewrite filter_app, (K uid Hu). simpl.
      destruct (String.eqb uid d) eqn:Ed.
      * apply String.eqb_eq in Ed. exfalso. apply Hne. congruence.
      * apply app_nil_r.
  - intros sid n now. unfold sessions_of. simpl. apply filter_map_fixed.
    + intros x. rewrite end_if_id_doctor. reflexivity.
    + intros x Hx. apply String.eqb_eq in Hx. apply end_if_id_other.
      intros E. apply Hne. congruence.
Qed.

Lemma other_doctors_sessions_untouched_witness :
  sessions_of (fst (startSession clinic2 (Some "dr-b") "pat-2" 20 21 "ses-2")) "dr-a"
  = sessions_of clinic2 "dr-a"
  /\ sessions_of clinic2 "dr-a" = [new_session "ses-1" "dr-a" "pat-1" 10]
  /\ sessions_of (fst (endSession clinic2 (Some "dr-b") "ses-1" None 30)) "dr-a"
     = sessions_of clinic2 "dr-a".
Proof.
  assert (N : Some "dr-b" <> Some "dr-a") by discriminate.
  destruct (other_doctors_sessions_untouched clinic2 (Some "dr-b") "dr-a" N) as [H1 H2].
  split; [apply H1|]. split; [reflexivity | apply H2].
Defined.

Lemma new_session_live now' new_uuid uid p db_now :
  session_live now' (new_session new_uuid uid p db_now) = true.
Proof. reflexivity. Qed.






Lemma singleton_filter {A} (P : A -> bool) (l : list A) (a : A) :
  (List.length (filter P l) <= 1)%nat -> In a l -> P a = true ->
  forall x, In x l -> P x = true -> x = a.
Proof.
  intros Hlen Ha Pa x Hx Px.
  assert (Fa : In a (filter P l)) by (apply filter_In; auto).
  assert (Fx : In x (filter P l)) by (apply filter_In; auto).
  destruct (filter P l) as [|y [|z r]]; simpl in *.
  - destruct Fa.
  - destruct Fa as [<- | []]. destruct Fx as [<- | []]. reflexivity.
  - lia.
Qed.

Lemma active_of_end (d : uuid) sid n now x :
  active_of d (end_if_id (Some d) sid n now x)
  = active_of d x && negb (String.eqb (id x) sid).
Proof.
  unfold end_if_id, rls_update_session, active_of. simpl.
  destruct (String.eqb (doctor_id x) d) eqn:Ed; simpl.
  - destruct (String.eqb (id x) sid); simpl.
    + rewrite Ed. simpl. rewrite andb_false_r. reflexivity.
    + rewrite Ed, andb_true_r. reflexivity.
  - rewrite Ed. reflexivity.
Qed.

(** The active sessions a doctor is left with after ending a session by
    its id: the ones with another id. *)
Lemma active_after_end l (d : uuid) sid n now :
  filter (active_of d) (map (end_if_id (Some d) sid n now) l)
  = filter (fun x => negb (String.eqb (id x) sid)) (filter (active_of d) l).
Proof.
  induction l as [|x l IH]; simpl; [reflexivity|].
  rewrite active_of_end.
  destruct (active_of d x) eqn:A; simpl; [|exact IH].
  destruct (String.eqb (id x) sid) eqn:Ei; simpl; [exact IH|].
  rewrite IH. f_equal. unfold end_if_id. rewrite Ei, andb_false_r. reflexivity.
Qed.

(** X6. Ending a session leaves the doctor with the active sessions that
    have another id. When the session was the only active session of the
    doctor, none is left, the doctor has no usable session with any
    patient from then on, and without the admin role the doctor's reads
    of sensitive rows are denied. *)
Theorem endSession_revokes_access :
  forall db s notes_arg now,
    In s (access_sessions db) -> status s = active ->
    let db' := fst (endSession db (Some (doctor_id s)) (id s) notes_arg now) in
    active_sessions_of db' (doctor_id s)
    = filter (fun x => negb (String.eqb (id x) (id s)))
        (active_sessions_of db (doctor_id s))
    /\ ((List.length (active_sessions_of db (doctor_id s)) <= 1)%nat ->
        active_sessions_of db' (doctor_id s) = []
        /\ (forall p now', has_active_session db' now' (Some (doctor_id s)) p = false)
        /\ (forall t r now', has_role db' (Some (doctor_id s)) admin = false ->
              select_policy t db' now' (Some (doctor_id s)) r = false)).
Proof.
  intros db s n now Hin Hst. simpl.
  set (d := doctor_id s).
  split; [apply (active_after_end (access_sessions db) d (id s) n now)|].
  intros H1.
  assert (Ps : active_of d s = true).
  { unfold active_of, d. rewrite Hst, String.eqb_refl. reflexivity. }
  assert (E : filter (active_of d)
                (map (end_if_id (Some d) (id s) n now) (access_sessions db)) = []).
  { apply filter_none. intros y Hy. apply in_map_iff in Hy.
    destruct Hy as [x [<- Hx]].
    destruct (active_of d (end_if_id (Some d) (id s) n now x)) eqn:F; [|reflexivity].
    pose proof (active_of_end_back _ _ _ _ _ _ F) as Px.
    pose proof (singleton_filter (active_of d) (access_sessions db) s
                  H1 Hin Ps x Hx Px) as ->.
    rewrite (end_if_id_hit d (id s) n now s eq_refl eq_refl) in F.
    unfold active_of in F. simpl in F. rewrite andb_false_r in F. discriminate F. }
  assert (A : forall p now',
            has_active_session
              (with_sessions db (map (end_if_id (Some d) (id s) n now) (access_sessions db)))
              now' (Some d) p = false).
  { intros p now'.
    match goal with |- ?b = false => destruct b eqn:H end; [|reflexivity].
    apply has_active_session_iff in H. destruct H as [y [Hy [Hd [_ [Hs _]]]]].
    injection Hd as Hd. simpl in Hy.
    assert (Fy : In y (filter (active_of d)
                         (map (end_if_id (Some d) (id s) n now) (access_sessions db)))).
    { apply filter_In. split; [exact Hy|]. unfold active_of.
      rewrite <- Hd, Hs, String.eqb_refl. reflexivity. }
    rewrite E in Fy. destruct Fy. }
  split; [exact E|]. split; [exact A|].
  intros t r now' Hadm. destruct t; simpl in *; rewrite Hadm, A; apply andb_false_r.
Qed.

Lemma endSession_revokes_access_witness :
  has_active_session clinic4 30 (Some "dr-a") "pat-2" = true
  /\ forall p now',
       has_active_session (fst (endSession clinic4 (Some "dr-a") "ses-2" None 30))
         now' (Some "dr-a") p = false.
Proof.
  split; [reflexivity|].
  destruct (endSession_revokes_access clinic4 (new_session "ses-2" "dr-a" "pat-2" 21)
              None 30) as [_ H].
  - right; left; reflexivity.
  - reflexivity.
  - apply H. simpl. lia.
Defined.

(** X7. [endSession] on an id that no session of the caller carries (an
    unknown id, another doctor's session, nobody signed in) reports
    success and changes nothing. *)
Theorem endSession_foreign_is_noop :
  forall db auth_uid sessionId notes_arg now,
    (forall s, In s (access_sessions db) -> id s = sessionId ->
       auth_uid <> Some (doctor_id s)) ->
    endSession db auth_uid sessionId notes_arg now = (db, Ok tt).
Proof.
  intros db auth sid n now H. unfold endSession.
  assert (M : map (end_if_id auth sid n now) (access_sessions db) = access_sessions db).
  { rewrite <- (map_id (access_sessions db)) at 2. apply map_ext_in.
    intros s Hin. unfold end_if_id, rls_update_session.
    destruct (is_uid (doctor_id s) auth) eqn:Eu; [|reflexivity].
    destruct (String.eqb (id s) sid) eqn:Ei; [|reflexivity].
    apply is_uid_true in Eu. apply String.eqb_eq in Ei.
    exfalso. exact (H s Hin Ei Eu). }
  rewrite M, with_sessions_same. reflexivity.
Qed.

Lemma endSession_foreign_is_noop_witness :
  endSession clinic2 (Some "root") "ses-1" (Some "closed by admin") 30 = (clinic2, Ok tt)
  /\ endSession clinic2 (Some "dr-a") "ses-7" None 30 = (clinic2, Ok tt).
Proof.
  split; apply endSession_foreign_is_noop; intros s [<- | []]; simpl; discriminate.
Defined.

(** ** The pages' view of the active sessions *)












(** * Further properties of the role registry *)

Lemma set_admin_user_id target r : user_id (set_admin target r) = user_id r.
Proof. unfold set_admin. destruct (String.eqb (user_id r) target); reflexivity. Qed.

Lemma set_admin_role target r :
  role (set_admin target r) = if String.eqb (user_id r) target then admin else role r.
Proof. unfold set_admin. destruct (String.eqb (user_id r) target); reflexivity. Qed.

Lemma roles_of_set_admin l (target u : uuid) :
  map role (filter (fun r => String.eqb (user_id r) u) (map (set_admin target) l))
  = if String.eqb u target
    then map (fun _ => admin) (map role (filter (fun r => String.eqb (user_id r) u) l))
    else map role (filter (fun r => String.eqb (user_id r) u) l).
Proof.
  induction l as [|r l IH]; simpl.
  - destruct (String.eqb u target); reflexivity.
  - rewrite set_admin_user_id.
    destruct (String.eqb (user_id r) u) eqn:Eu; simpl; [|exact IH].
    rewrite IH, set_admin_role. apply String.eqb_eq in Eu. rewrite Eu.
    destruct (String.eqb u target); reflexivity.
Qed.

Lemma role_row_found_roles_of db (target : uuid) :
  role_row_found db target = false <-> roles_of db target = [].
Proof.
  unfold role_row_found, roles_of.
  induction (user_roles db) as [|r l IH]; simpl; [tauto|].
  destruct (String.eqb (user_id r) target); simpl; [|exact IH].
  split; discriminate.
Qed.

(** The registry after a successful promotion. *)
Lemma promote_to_admin_roles db auth (target : uuid) now :
  has_role db auth admin = true ->
  user_roles (fst (promote_to_admin db auth target now))
  = map (set_admin target) (user_roles db)
    ++ (if role_row_found db target then [] else [mkUserRole target admin]).
Proof.
  intros A. unfold promote_to_admin. rewrite A. simpl.
  destruct (role_row_found db target); [rewrite app_nil_r|]; reflexivity.
Qed.

(** X10. [promote_to_admin]: a caller without the admin role gets the
    exception and nothing changes. Otherwise the call succeeds: every
    role stored for the target becomes admin, a target without a stored
    role gets one admin row, so the target holds the admin role and no
    other; the roles of every other user stay as they were; and one audit
    entry is appended that names the caller as actor and the target as
    entity. *)
Theorem promote_to_admin_contract :
  forall db auth_uid (target : uuid) now,
    (has_role db auth_uid admin = false ->
     promote_to_admin db auth_uid target now
     = (db, Err (RaiseException msg_promote_forbidden)))
    /\ (has_role db auth_uid admin = true ->
        let db' := fst (promote_to_admin db auth_uid target now) in
        snd (promote_to_admin db auth_uid target now) = Ok tt
        /\ roles_of db' target
           = match roles_of db target with
             | [] => [admin]
             | stored => map (fun _ => admin) stored
             end
        /\ has_role db' (Some target) admin = true
        /\ has_role db' (Some target) doctor = false
        /\ (forall u, u <> target -> roles_of db' u = roles_of db u)
        /\ (exists entry,
              audit_logs db' = audit_logs db ++ [entry]
              /\ audit_user_id entry = auth_uid /\ entity_id entry = target
              /\ action entry = "PROMOTE_TO_ADMIN")
        /\ access_sessions db' = access_sessions db).
Proof.
  intros db auth target now. split.
  - intros A. unfold promote_to_admin. rewrite A. reflexivity.
  - intros A. simpl.
    assert (Rt : roles_of (fst (promote_to_admin db auth target now)) target
                 = match roles_of db target with
                   | [] => [admin]
                   | stored => map (fun _ => admin) stored
                   end).
    { unfold roles_of at 1. rewrite (promote_to_admin_roles db auth target now A).
      rewrite filter_app, map_app, roles_of_set_admin, String.eqb_refl.
      fold (roles_of db target).
      destruct (role_row_found db target) eqn:F.
      - simpl. rewrite app_nil_r.
        destruct (roles_of db target) eqn:E; [|reflexivity].
        apply role_row_found_roles_of in E. congruence.
      - apply role_row_found_roles_of in F. rewrite F. simpl.
        rewrite String.eqb_refl. reflexivity. }
    assert (All : forall r, In r (roles_of (fst (promote_to_admin db auth target now)) target)
                            -> r = admin).
    { intros r. rewrite Rt. destruct (roles_of db target) as [|a l].
      - intros [<- | []]. reflexivity.
      - intros Hin. apply in_map_iff in Hin. destruct Hin as [x [<- _]]. reflexivity. }
    split; [unfold promote_to_admin; rewrite A; reflexivity|].
    split; [exact Rt|]. split; [|split; [|split; [|split]]].
    + apply has_role_roles_of. rewrite Rt.
      destruct (roles_of db target); simpl; auto.
    + destruct (has_role (fst (promote_to_admin db auth target now)) (Some target) doctor)
        eqn:D; [|reflexivity].
      apply has_role_roles_of in D. apply All in D. discriminate D.
    + intros u Hu. unfold roles_of at 1.
      rewrite (promote_to_admin_roles db auth target now A).
      rewrite filter_app, map_app, roles_of_set_admin.
      apply String.eqb_neq in Hu. rewrite Hu.
      destruct (role_row_found db target); simpl.
      * apply app_nil_r.
      * rewrite String.eqb_sym, Hu. apply app_nil_r.
    + unfold promote_to_admin. rewrite A. simpl. eexists. split; [reflexivity|]. auto.
    + unfold promote_to_admin. rewrite A. reflexivity.
Qed.

Lemma promote_to_admin_contract_witness :
  promote_to_admin clinic2 (Some "dr-a") "dr-a" 20
  = (clinic2, Err (RaiseException msg_promote_forbidden))
  /\ roles_of clinic2 "dr-a" = [doctor]
  /\ roles_of clinic3 "dr-a" = [admin]
  /\ roles_of (fst (promote_to_admin clinic2 (Some "root") "dr-z" 20)) "dr-z" = [admin].
Proof.
  split; [|split; [reflexivity|split]].
  - destruct (promote_to_admin_contract clinic2 (Some "dr-a") "dr-a" 20) as [H _].
    apply H. reflexivity.
  - destruct (promote_to_admin_contract clinic2 (Some "root") "dr-a" 20) as [_ H].
    destruct (H eq_refl) as [_ [E _]]. exact E.
  - destruct (promote_to_admin_contract clinic2 (Some "root") "dr-z" 20) as [_ H].
    destruct (H eq_refl) as [_ [E _]]. exact E.
Defined.

(** After a promotion every stored role of the target is admin. *)
Lemma promoted_roles_admin db auth (target : uuid) now r :
  has_role db auth admin = true ->
  In r (roles_of (fst (promote_to_admin db auth target now)) target) -> r = admin.
Proof.
  intros A. unfold roles_of. rewrite (promote_to_admin_roles db auth target now A).
  rewrite filter_app, map_app, roles_of_set_admin, String.eqb_refl.
  intros Hin. apply in_app_or in Hin. destruct Hin as [Hin | Hin].
  - apply in_map_iff in Hin. destruct Hin as [x [<- _]]. reflexivity.
  - destruct (role_row_found db target); simpl in Hin; [destruct Hin|].
    rewrite String.eqb_refl in Hin. destruct Hin as [<- | []]. reflexivity.
Qed.

Lemma promoted_has_admin db auth (target : uuid) now :
  has_role db auth admin = true ->
  has_role (fst (promote_to_admin db auth target now)) (Some target) admin = true.
Proof.
  intros A. apply has_role_roles_of. unfold roles_of.
  rewrite (promote_to_admin_roles db auth target now A).
  rewrite filter_app, map_app, roles_of_set_admin, String.eqb_refl.
  destruct (role_row_found db target) eqn:F.
  - apply in_or_app. left.
    destruct (map role (filter (fun r => String.eqb (user_id r) target) (user_roles db)))
      as [|a l] eqn:E.
    + apply (proj2 (role_row_found_roles_of db target)) in E. congruence.
    + left. reflexivity.
  - apply in_or_app. right. simpl. rewrite String.eqb_refl. left. reflexivity.
Qed.

(** X11. A promotion replaces the doctor role, and the insert policy of
    [access_sessions] asks for the doctor role: a user who has just been
    promoted cannot start a session. Every [startSession] of that user is
    rejected, and it still closes the sessions the user had open. The
    user reads every sensitive row without a session. *)
Theorem promoted_user_cannot_start_session :
  forall db auth_uid (target : uuid) now,
    has_role db auth_uid admin = true ->
    truthy (Some target) = true ->
    let db' := fst (promote_to_admin db auth_uid target now) in
    has_role db' (Some target) doctor = false
    /\ (forall p now1 db_now new_uuid,
          snd (startSession db' (Some target) p now1 db_now new_uuid) = Err RlsViolation
          /\ active_sessions_of
               (fst (startSession db' (Some target) p now1 db_now new_uuid)) target = [])
    /\ (forall t now1 r, select_policy t db' now1 (Some target) r = true).
Proof.
  intros db auth target now A T. simpl.
  set (db' := fst (promote_to_admin db auth target now)).
  assert (D : has_role db' (Some target) doctor = false).
  { destruct (has_role db' (Some target) doctor) eqn:D; [|reflexivity].
    apply has_role_roles_of in D. apply (promoted_roles_admin db auth target now _ A) in D.
    discriminate D. }
  split; [exact D|]. split.
  - intros p now1 db_now new_uuid.
    rewrite (startSession_signed_in db' target p now1 db_now new_uuid T).
    unfold insert_session, rls_insert_session.
    assert (D' : has_role
                   (with_sessions db'
                      (map (close_if_active (Some target) target now1) (access_sessions db')))
                   (Some target) doctor = false) by exact D.
    rewrite D', andb_false_r. simpl. split; [reflexivity|].
    unfold active_sessions_of. simpl. apply filter_none.
    intros x Hx. apply in_map_iff in Hx. destruct Hx as [s0 [<- _]].
    apply active_of_close_own.
  - intros t now1 r.
    pose proof (promoted_has_admin db auth target now A) as Ad. fold db' in Ad.
    destruct t; simpl; rewrite Ad; reflexivity.
Qed.

Lemma promoted_user_cannot_start_session_witness :
  snd (startSession clinic3 (Some "dr-a") "pat-2" 30 30 "ses-2") = Err RlsViolation
  /\ active_sessions_of clinic3 "dr-a" = [new_session "ses-1" "dr-a" "pat-1" 10]
  /\ active_sessions_of (fst (startSession clinic3 (Some "dr-a") "pat-2" 30 30 "ses-2"))
       "dr-a" = [].
Proof.
  destruct (promoted_user_cannot_start_session clinic2 (Some "root") "dr-a" 20
              eq_refl eq_refl) as [_ [H _]].
  destruct (H "pat-2" 30 30 "ses-2") as [H1 H2].
  split; [exact H1|]. split; [reflexivity | exact H2].
Defined.

Lemma has_role_None db r : has_role db None r = false.
Proof.
  unfold has_role. induction (user_roles db) as [|x l IH]; simpl; [reflexivity|exact IH].
Qed.

Lemma has_role_app db l auth r :
  has_role db auth r = true -> has_role (with_roles db (user_roles db ++ l)) auth r = true.
Proof.
  unfold has_role. simpl. rewrite existsb_app. intros ->. reflexivity.
Qed.

Lemma has_role_set_admin_kept l auth :
  existsb (fun r => is_uid (user_id r) auth && app_role_eqb (role r) admin) l = true ->
  forall target,
    existsb (fun r => is_uid (user_id r) auth && app_role_eqb (role r) admin)
      (map (set_admin target) l) = true.
Proof.
  intros H target. apply existsb_exists in H. destruct H as [r [Hin Hr]].
  apply existsb_exists. exists (set_admin target r). split; [apply in_map; exact Hin|].
  rewrite set_admin_user_id, set_admin_role.
  apply andb_true_iff in Hr. destruct Hr as [Hu Ha]. rewrite Hu. simpl.
  destruct (String.eqb (user_id r) target); [reflexivity | exact Ha].
Qed.

Lemma has_role_set_doctor_kept l auth (target : uuid) :
  is_uid target auth = false ->
  existsb (fun r => is_uid (user_id r) auth && app_role_eqb (role r) admin) l = true ->
  existsb (fun r => is_uid (user_id r) auth && app_role_eqb (role r) admin)
    (map (set_doctor target) l) = true.
Proof.
  intros Hne H. apply existsb_exists in H. destruct H as [r [Hin Hr]].
  apply existsb_exists. exists (set_doctor target r). split; [apply in_map; exact Hin|].
  rewrite set_doctor_user_id, set_doctor_role.
  apply andb_true_iff in Hr. destruct Hr as [Hu Ha]. rewrite Hu. simpl.
  destruct (String.eqb (user_id r) target) eqn:E; [|exact Ha].
  apply String.eqb_eq in E. rewrite E in Hu. congruence.
Qed.

(** The caller of a promotion or a demotion is an admin afterwards; a
    failed call changes nothing. *)
Lemma role_call_keeps_caller db auth (target : uuid) now :
  has_role db auth admin = true ->
  has_role (fst (promote_to_admin db auth target now)) auth admin = true
  /\ has_role (fst (demote_from_admin db auth target now)) auth admin = true.
Proof.
  intros A. split.
  - unfold has_role. rewrite (promote_to_admin_roles db auth target now A).
    rewrite existsb_app. unfold has_role in A.
    rewrite (has_role_set_admin_kept _ _ A target). reflexivity.
  - unfold demote_from_admin. rewrite A. simpl.
    destruct (is_uid target auth) eqn:E; simpl; [exact A|].
    unfold has_role in *. simpl. apply has_role_set_doctor_kept; assumption.
Qed.

(** The part of [processScannedId] that can change the database: it is
    either left as it was, or [startSession] has run on it, possibly
    after one patient was added. *)
Lemma processScannedId_run db user sp processing tag rp pu su now db_now :
  let run := processScannedId db user sp processing tag rp pu su now db_now in
  (fst run = db
   /\ (snd run = Ignored \/ snd run = Failed \/ exists scanned, snd run = Mismatch scanned))
  \/ (exists dbx patientId,
        (dbx = db
         \/ (dbx = with_patients db
                     (patients db ++ [mkPatient pu (set_caretag_id rp (toUpperCase (trim tag)))])
             /\ patientId = pu
             /\ existsb (fun q => String.eqb (pat_id q) pu) (patients db) = false
             /\ find_patient db (toUpperCase (trim tag)) = Ok None))
        /\ run = start_and_navigate dbx user patientId now db_now su).
Proof.
  simpl. unfold processScannedId.
  assert (Rt : let run := resolve_tag db user (toUpperCase (trim tag)) rp pu su now db_now in
               (fst run = db
                /\ (snd run = Ignored \/ snd run = Failed
                    \/ exists scanned, snd run = Mismatch scanned))
               \/ (exists dbx patientId,
                     (dbx = db
                      \/ (dbx = with_patients db
                                  (patients db
                                   ++ [mkPatient pu (set_caretag_id rp (toUpperCase (trim tag)))])
                          /\ patientId = pu
                          /\ existsb (fun q => String.eqb (pat_id q) pu) (patients db) = false
                          /\ find_patient db (toUpperCase (trim tag)) = Ok None))
                     /\ run = start_and_navigate dbx user patientId now db_now su)).
  { simpl. unfold resolve_tag.
    destruct (find_patient db (toUpperCase (trim tag))) as [[ex|]|e] eqn:F; simpl.
    - right. exists db, (pat_id ex). auto.
    - unfold insert_patient.
      destruct (existsb (fun q => String.eqb (pat_id q) pu) (patients db)) eqn:K; simpl.
      + left. auto.
      + right. eexists. exists pu. split; [right; repeat split; auto|]. reflexivity.
    - left. auto. }
  destruct processing; [left; simpl; auto|].
  destruct (expectedCaretagId sp) as [expected|]; [|exact Rt].
  destruct (negb (String.eqb (toUpperCase (trim tag)) expected));
    [left; simpl; eauto|].
  destruct (expectedPatientId sp) as [pid|]; [|exact Rt].
  right. exists db, pid. auto.
Qed.

Lemma processScannedId_frame db user sp processing tag rp pu su now db_now :
  let db' := fst (processScannedId db user sp processing tag rp pu su now db_now) in
  user_roles db' = user_roles db /\ audit_logs db' = audit_logs db.
Proof.
  destruct (processScannedId_run db user sp processing tag rp pu su now db_now)
    as [[E _] | [dbx [pid [Hx E]]]]; simpl in *.
  - rewrite E. auto.
  - rewrite E, start_and_navigate_fst.
    destruct (startSession_frame dbx user pid now db_now su) as [Hr [_ [_ Ha]]].
    rewrite Hr, Ha. destruct Hx as [-> | [-> _]]; auto.
Qed.

(** X12. No operation removes the last admin: if some user holds the admin
    role before an operation, some user holds it afterwards. After a
    demotion that is the caller, who cannot be the target. *)
Theorem operations_keep_an_admin :
  forall db db',
    step db db' ->
    (exists u, has_role db (Some u) admin = true) ->
    exists u, has_role db' (Some u) admin = true.
Proof.
  intros db db' Hstep [u A].
  destruct Hstep as [NEW|auth target now|auth target now|user p now db_now new_uuid
                    |auth sid n now|user sp pr tag rp pu su now db_now
                    |uid now T|uid p db_now new_uuid T|new_uuid d
                    |auth ue pv ia doctorId st reason].
  - exists u. unfold handle_new_user, has_role in *. simpl in *.
    rewrite existsb_app, A. reflexivity.
  - exists u. destruct (has_role db auth admin) eqn:C.
    + unfold has_role. rewrite (promote_to_admin_roles db auth target now C).
      rewrite existsb_app. unfold has_role in A.
      rewrite (has_role_set_admin_kept _ _ A target). reflexivity.
    + unfold promote_to_admin. rewrite C. exact A.
  - destruct (has_role db auth admin) eqn:C.
    + destruct auth as [c|]; [|rewrite has_role_None in C; discriminate C].
      exists c. apply (role_call_keeps_caller db (Some c) target now C).
    + exists u. unfold demote_from_admin. rewrite C. exact A.
  - exists u. unfold has_role in *.
    destruct (startSession_frame db user p now db_now new_uuid) as [Hr _].
    rewrite Hr. exact A.
  - exists u. exact A.
  - exists u. unfold has_role in *.
    destruct (processScannedId_frame db user sp pr tag rp pu su now db_now) as [Hr _].
    rewrite Hr. exact A.
  - exists u. exact A.
  - exists u. unfold has_role in *.
    destruct (insertSession_frame db uid p db_now new_uuid) as [Hr _].
    rewrite Hr. exact A.
  - exists u. unfold has_role in *.
    destruct (insert_patient_frame db new_uuid d) as [Hr _].
    rewrite Hr. exact A.
  - exists u. unfold has_role in *.
    destruct (updateVerificationMutation_frame db auth ue pv ia doctorId st reason)
      as [Hr _].
    rewrite Hr. exact A.
Qed.

Lemma operations_keep_an_admin_witness :
  exists u, has_role (fst (demote_from_admin clinic3 (Some "dr-a") "root" 40)) (Some u) admin
            = true.
Proof.
  apply (operations_keep_an_admin clinic3).
  - constructor.
  - exists "root". reflexivity.
Defined.

Lemma set_doctor_set_admin (target : uuid) r :
  (user_id r = target -> role r = doctor) ->
  set_doctor target (set_admin target r) = r.
Proof.
  intros H. unfold set_admin.
  destruct (String.eqb (user_id r) target) eqn:E.
  - unfold set_doctor. simpl. rewrite E. simpl.
    apply String.eqb_eq in E. specialize (H E). destruct r as [u ro]. simpl in *.
    subst ro. reflexivity.
  - unfold set_doctor. rewrite E. reflexivity.
Qed.

(** X13. Promotion followed by demotion, both by an admin other than the
    target, gives back the registry: a target that held only the doctor
    role holds it again and every row is as before; a target without a
    stored role ends with one doctor row. Both calls succeed and each
    leaves one audit entry. *)
Theorem promote_then_demote_restores :
  forall db auth_uid (target : uuid) t1 t2,
    has_role db auth_uid admin = true ->
    auth_uid <> Some target ->
    has_role db (Some target) admin = false ->
    let db1 := fst (promote_to_admin db auth_uid target t1) in
    let db2 := fst (demote_from_admin db1 auth_uid target t2) in
    snd (promote_to_admin db auth_uid target t1) = Ok tt
    /\ snd (demote_from_admin db1 auth_uid target t2) = Ok tt
    /\ user_roles db2
       = user_roles db
         ++ (if role_row_found db target then [] else [mkUserRole target doctor])
    /\ audit_logs db2
       = audit_logs db
         ++ [mkAuditLog auth_uid "PROMOTE_TO_ADMIN" "user_roles" target
               [("promoted_user_id", JUuid (Some target));
                ("promoted_by", JUuid auth_uid);
                ("promoted_at", JTimestamp t1)];
             demotion_entry auth_uid target t2].
Proof.
  intros db auth target t1 t2 A Hne Ht. simpl.
  pose proof (proj1 (role_call_keeps_caller db auth target t1 A)) as A1.
  assert (U : is_uid target auth = false).
  { destruct (is_uid target auth) eqn:E; [|reflexivity].
    apply is_uid_true in E. contradiction. }
  split; [unfold promote_to_admin; rewrite A; reflexivity|].
  unfold demote_from_admin. rewrite A1, U. simpl.
  split; [reflexivity|]. split.
  - rewrite (promote_to_admin_roles db auth target t1 A), map_app, map_map.
    f_equal.
    + rewrite <- (map_id (user_roles db)) at 2. apply map_ext_in.
      intros r Hin. apply set_doctor_set_admin. intros Hu.
      destruct (role r) eqn:Er; [reflexivity|].
      assert (C : has_role db (Some target) admin = true).
      { unfold has_role. apply existsb_exists. exists r. split; [exact Hin|].
        simpl. rewrite Hu, String.eqb_refl, Er. reflexivity. }
      congruence.
    + destruct (role_row_found db target); simpl; [reflexivity|].
      unfold set_doctor. simpl. rewrite String.eqb_refl. reflexivity.
  - unfold promote_to_admin. rewrite A. simpl. rewrite <- app_assoc. reflexivity.
Qed.

Lemma promote_then_demote_restores_witness :
  user_roles (fst (demote_from_admin clinic3 (Some "root") "dr-a" 40)) = user_roles clinic2.
Proof.
  assert (N : Some "root" <> Some "dr-a") by discriminate.
  destruct (promote_then_demote_restores clinic2 (Some "root") "dr-a" 20 40
              eq_refl N eq_refl) as [_ [_ [H _]]].
  etransitivity; [exact H | reflexivity].
Defined.

Lemma roles_of_promote_other db auth (target u : uuid) now :
  u <> target ->
  roles_of (fst (promote_to_admin db auth target now)) u = roles_of db u.
Proof.
  intros Hu. unfold promote_to_admin.
  destruct (negb (has_role db auth admin)); [reflexivity|].
  unfold roles_of. simpl. apply String.eqb_neq in Hu.
  destruct (role_row_found db target).
  - rewrite roles_of_set_admin, Hu. reflexivity.
  - rewrite filter_app, map_app, roles_of_set_admin, Hu. simpl.
    rewrite String.eqb_sym, Hu. apply app_nil_r.
Qed.

(** X14. The audit log is append-only: every step leaves the entries
    that are there in place and adds at most one. An added entry is a
    promotion or demotion on [user_roles], written by the database
    function for a caller who is an admin, or an entry of the
    verification panel, with action [doctor_verification_<status>] on a
    [profile], written from the client. *)
Theorem audit_log_append_only :
  forall db db',
    step db db' ->
    exists added,
      audit_logs db' = audit_logs db ++ added
      /\ (List.length added <= 1)%nat
      /\ (forall entry, In entry added ->
            entry_of_role_function db entry \/ entry_of_verification_panel entry).
Proof.
  intros db db' Hstep.
  assert (N : forall l : list AuditLog,
            l = l ++ [] /\ (List.length (@nil AuditLog) <= 1)%nat
            /\ (forall entry, In entry [] ->
                  entry_of_role_function db entry \/ entry_of_verification_panel entry)).
  { intros l. rewrite app_nil_r. split; [reflexivity|]. split; [simpl; lia|].
    intros entry []. }
  destruct Hstep as [NEW|auth target now|auth target now|user p now db_now new_uuid
                    |auth sid n now|user sp pr tag rp pu su now db_now
                    |uid now T|uid p db_now new_uuid T|new_uuid d
                    |auth ue pv ia doctorId st reason].
  - exists []. apply N.
  - unfold promote_to_admin. destruct (has_role db auth admin) eqn:A; simpl.
    + eexists. split; [reflexivity|]. split; [simpl; lia|].
      intros entry [<- | []]. left. unfold entry_of_role_function. simpl. auto.
    + exists []. apply N.
  - unfold demote_from_admin. destruct (has_role db auth admin) eqn:A; simpl.
    + destruct (is_uid target auth); simpl.
      * exists []. apply N.
      * eexists. split; [reflexivity|]. split; [simpl; lia|].
        intros entry [<- | []]. left. unfold entry_of_role_function. simpl. auto.
    + exists []. apply N.
  - exists [].
    destruct (startSession_frame db user p now db_now new_uuid) as [_ [_ [_ Ha]]].
    rewrite Ha. apply N.
  - exists []. apply N.
  - exists [].
    destruct (processScannedId_frame db user sp pr tag rp pu su now db_now) as [_ Ha].
    rewrite Ha. apply N.
  - exists []. apply N.
  - exists [].
    destruct (insertSession_frame db uid p db_now new_uuid) as [_ [_ [_ Ha]]].
    rewrite Ha. apply N.
  - exists [].
    destruct (insert_patient_frame db new_uuid d) as [_ [_ [_ Ha]]].
    rewrite Ha. apply N.
  - unfold updateVerificationMutation.
    destruct ue as [e|]; [exists []; apply N|].
    destruct ia; simpl; [|exists []; apply N].
    eexists. split; [reflexivity|]. split; [simpl; lia|].
    intros entry [<- | []]. right. unfold entry_of_verification_panel. simpl.
    split; [exists st|]; reflexivity.
Qed.

Lemma audit_log_append_only_witness :
  (exists added, audit_logs clinic3 = audit_logs clinic2 ++ added
                 /\ (List.length added <= 1)%nat)
  /\ exists added,
       audit_logs (fst (updateVerificationMutation clinic3 (Some "root") None
                          (fun _ => true) true "dr-a" "verified" None))
       = audit_logs clinic3 ++ added
       /\ (forall entry, In entry added ->
             entry_of_role_function clinic3 entry \/ entry_of_verification_panel entry).
Proof.
  split.
  - destruct (audit_log_append_only clinic2 clinic3) as [added [H1 [H2 _]]].
    + constructor.
    + exists added. auto.
  - destruct (audit_log_append_only clinic3
                (fst (updateVerificationMutation clinic3 (Some "root") None
                        (fun _ => true) true "dr-a" "verified" None)))
      as [added [H1 [_ H3]]].
    + apply step_updateVerificationMutation.
    + exists added. auto.
Defined.

(** X15. Nobody becomes admin unnoticed: when a user holds the admin role
    after an operation and did not hold it before, the operation has
    appended an audit entry of a promotion whose entity is that user and
    whose actor held the admin role. *)
Theorem admin_grants_are_audited :
  forall db db' (u : uuid),
    step db db' ->
    has_role db (Some u) admin = false ->
    has_role db' (Some u) admin = true ->
    exists entry,
      audit_logs db' = audit_logs db ++ [entry]
      /\ action entry = "PROMOTE_TO_ADMIN"
      /\ entity_id entry = u
      /\ has_role db (audit_user_id entry) admin = true.
Proof.
  intros db db' u Hstep Hb Ha.
  destruct Hstep as [NEW|auth target now|auth target now|user p now db_now new_uuid
                    |auth sid n now|user sp pr tag rp pu su now db_now
                    |uid now T|uid p db_now new_uuid T|new_uuid d
                    |auth ue pv ia doctorId st reason].
  - exfalso. apply has_role_roles_of in Ha.
    unfold handle_new_user, roles_of in Ha. simpl in Ha.
    rewrite filter_app, map_app in Ha. apply in_app_or in Ha.
    destruct Ha as [Ha | Ha].
    + apply (proj2 (has_role_roles_of db u admin)) in Ha. congruence.
    + simpl in Ha. destruct (String.eqb (new_id NEW) u); simpl in Ha;
        [destruct Ha as [Ha | []]; discriminate Ha | destruct Ha].
  - destruct (String.eqb u target) eqn:E.
    + apply String.eqb_eq in E. subst u.
      unfold promote_to_admin in *. destruct (has_role db auth admin) eqn:A; simpl in *.
      * eexists. split; [reflexivity|]. simpl. auto.
      * congruence.
    + exfalso. apply String.eqb_neq in E. apply has_role_roles_of in Ha.
      rewrite (roles_of_promote_other db auth target u now E) in Ha.
      apply (proj2 (has_role_roles_of db u admin)) in Ha. congruence.
  - exfalso. apply has_role_roles_of in Ha. unfold demote_from_admin in Ha.
    destruct (negb (has_role db auth admin));
      [apply (proj2 (has_role_roles_of db u admin)) in Ha; simpl in Ha; congruence|].
    destruct (is_uid target auth);
      [apply (proj2 (has_role_roles_of db u admin)) in Ha; simpl in Ha; congruence|].
    simpl in Ha.
    assert (Ha' : In admin (roles_of (with_roles db (map (set_doctor target) (user_roles db))) u))
      by exact Ha.
    rewrite roles_of_set_doctor in Ha'.
    destruct (String.eqb u target).
    + apply in_map_iff in Ha'. destruct Ha' as [x [Hx _]]. destruct x; discriminate Hx.
    + apply (proj2 (has_role_roles_of db u admin)) in Ha'. congruence.
  - exfalso. unfold has_role in *.
    destruct (startSession_frame db user p now db_now new_uuid) as [Hr _].
    rewrite Hr in Ha. congruence.
  - exfalso. change (has_role db (Some u) admin = true) in Ha. congruence.
  - exfalso. unfold has_role in *.
    destruct (processScannedId_frame db user sp pr tag rp pu su now db_now) as [Hr _].
    rewrite Hr in Ha. congruence.
  - exfalso. change (has_role db (Some u) admin = true) in Ha. congruence.
  - exfalso. unfold has_role in *.
    destruct (insertSession_frame db uid p db_now new_uuid) as [Hr _].
    rewrite Hr in Ha. congruence.
  - exfalso. unfold has_role in *.
    destruct (insert_patient_frame db new_uuid d) as [Hr _].
    rewrite Hr in Ha. congruence.
  - exfalso. unfold has_role in *.
    destruct (updateVerificationMutation_frame db auth ue pv ia doctorId st reason)
      as [Hr _].
    rewrite Hr in Ha. congruence.
Qed.

Lemma admin_grants_are_audited_witness :
  exists entry,
    audit_logs clinic3 = audit_logs clinic2 ++ [entry]
    /\ action entry = "PROMOTE_TO_ADMIN" /\ entity_id entry = "dr-a"
    /\ has_role clinic2 (audit_user_id entry) admin = true.
Proof.
  apply (admin_grants_are_audited clinic2 clinic3 "dr-a"); [constructor | reflexivity..].
Defined.

(** * Further properties of tag resolution *)

Lemma trimStart_head s :
  trimStart s = EmptyString
  \/ exists c rest, trimStart s = String c rest /\ is_white_space c = false.
Proof.
  induction s as [|c s IH]; simpl; [left; reflexivity|].
  destruct (is_white_space c) eqn:E; [exact IH|]. right. eauto.
Qed.

Lemma trimEnd_idem s : trimEnd (trimEnd s) = trimEnd s.
Proof.
  induction s as [|c s IH]; simpl; [reflexivity|].
  destruct (trimEnd s) as [|c' kept] eqn:E.
  - destruct (is_white_space c) eqn:W; simpl; [reflexivity|]. rewrite W. reflexivity.
  - change (trimEnd (String c (String c' kept))) with
      (match trimEnd (String c' kept) with
       | EmptyString => if is_white_space c then EmptyString else String c EmptyString
       | kept0 => String c kept0
       end).
    rewrite IH. reflexivity.
Qed.

Lemma trimStart_trimEnd c rest :
  is_white_space c = false ->
  trimStart (trimEnd (String c rest)) = trimEnd (String c rest).
Proof.
  intros W. simpl. destruct (trimEnd rest); rewrite ?W; simpl; rewrite W; reflexivity.
Qed.

(** Trimming twice is trimming once. *)
Lemma trim_idem s : trim (trim s) = trim s.
Proof.
  unfold trim. destruct (trimStart_head s) as [E | [c [rest [E W]]]]; rewrite E.
  - reflexivity.
  - rewrite (trimStart_trimEnd c rest W). apply trimEnd_idem.
Qed.

(** Normalizing a normalized tag changes nothing. *)
Lemma normalize_idem s :
  toUpperCase (trim (toUpperCase (trim s))) = toUpperCase (trim s).
Proof.
  rewrite (toUpperCase_trim (toUpperCase (trim s))), toUpperCase_idem.
  rewrite !toUpperCase_trim, trim_idem. reflexivity.
Qed.

Lemma normalize_upper s : toUpperCase (trim (toUpperCase s)) = toUpperCase (trim s).
Proof. rewrite !toUpperCase_trim, toUpperCase_idem. reflexivity. Qed.

Lemma normalize_trimmed s : toUpperCase (trim (trim s)) = toUpperCase (trim s).
Proof. rewrite trim_idem. reflexivity. Qed.

(** [processScannedId] depends on the scanned string only through its
    normalized form. *)
Lemma processScannedId_normalized db user sp processing tag tag' rp pu su now db_now :
  toUpperCase (trim tag') = toUpperCase (trim tag) ->
  processScannedId db user sp processing tag' rp pu su now db_now
  = processScannedId db user sp processing tag rp pu su now db_now.
Proof. intros H. unfold processScannedId. rewrite H. reflexivity. Qed.

(** X17. The upper-casing the QR hook applies before it hands the decoded text
    over, and the trimming the manual search applies, do not change the
    outcome: a tag read by the camera or typed by hand is resolved like
    the raw string. A blank manual input does nothing. *)
Theorem scan_entry_points_agree :
  forall db user sp processing text randomPatient patient_uuid session_uuid now db_now,
    let direct := processScannedId db user sp processing text randomPatient
                    patient_uuid session_uuid now db_now in
    qr_onScan db user sp processing text randomPatient patient_uuid session_uuid now db_now
    = direct
    /\ (trim text = EmptyString ->
        handleManualSearch db user sp processing text randomPatient
          patient_uuid session_uuid now db_now = (db, None))
    /\ (trim text <> EmptyString ->
        handleManualSearch db user sp processing text randomPatient
          patient_uuid session_uuid now db_now = (fst direct, Some (snd direct))).
Proof.
  intros db user sp processing text rp pu su now db_now. simpl.
  split; [|split].
  - unfold qr_onScan. apply processScannedId_normalized. apply normalize_upper.
  - intros E. unfold handleManualSearch. rewrite E. reflexivity.
  - intros E. unfold handleManualSearch. apply String.eqb_neq in E. rewrite E.
    rewrite (processScannedId_normalized db user sp processing text (trim text)
               rp pu su now db_now (normalize_trimmed text)).
    reflexivity.
Qed.

Lemma scan_entry_points_agree_witness :
  handleManualSearch clinic1 (Some "dr-a") no_expectation false "   "
    (some_patient_data "CT-2026-7777") "pat-3" "ses-1" 10 10 = (clinic1, None)
  /\ snd (handleManualSearch clinic1 (Some "dr-a") no_expectation false " ct-2026-0002"
            (some_patient_data "CT-2026-7777") "pat-3" "ses-1" 10 10)
     = Some (Navigated "pat-2").
Proof.
  split.
  - destruct (scan_entry_points_agree clinic1 (Some "dr-a") no_expectation false "   "
                (some_patient_data "CT-2026-7777") "pat-3" "ses-1" 10 10) as [_ [H _]].
    apply H. reflexivity.
  - destruct (scan_entry_points_agree clinic1 (Some "dr-a") no_expectation false
                " ct-2026-0002" (some_patient_data "CT-2026-7777") "pat-3" "ses-1" 10 10)
      as [_ [_ H]].
    rewrite H; [reflexivity | discriminate].
Defined.

(** X18. The scan page opened without an expected tag behaves like the
    earlier scan page, which knows no expected patient. *)
Theorem processScannedId_without_expectation :
  forall db user sp processing tag randomPatient patient_uuid session_uuid now db_now,
    param_expect sp = None \/ param_expect sp = Some EmptyString ->
    processScannedId db user sp processing tag randomPatient
      patient_uuid session_uuid now db_now
    = processScannedId_direct db user processing tag randomPatient
        patient_uuid session_uuid now db_now.
Proof.
  intros db user sp processing tag rp pu su now db_now H.
  unfold processScannedId, processScannedId_direct.
  assert (E : expectedCaretagId sp = None).
  { unfold expectedCaretagId. destruct H as [-> | ->]; reflexivity. }
  rewrite E. reflexivity.
Qed.

Lemma processScannedId_without_expectation_witness :
  processScannedId clinic1 (Some "dr-a") (mkSearchParams None None (Some "pat-1")) false
    "ct-2026-0002" (some_patient_data "CT-2026-7777") "pat-3" "ses-1" 10 10
  = processScannedId_direct clinic1 (Some "dr-a") false
      "ct-2026-0002" (some_patient_data "CT-2026-7777") "pat-3" "ses-1" 10 10.
Proof.
  apply processScannedId_without_expectation. left. reflexivity.
Defined.





(** X20. A scan that is dropped because another one is being processed, or
    that is reported as a mismatch with the expected tag, leaves the
    database as it was; a scan that arrives while one is being processed
    is always dropped. *)
Theorem scan_rejected_changes_nothing :
  forall db user sp processing tag randomPatient patient_uuid session_uuid now db_now,
    let run := processScannedId db user sp processing tag randomPatient
                 patient_uuid session_uuid now db_now in
    (processing = true -> run = (db, Ignored))
    /\ (snd run = Ignored \/ (exists scanned, snd run = Mismatch scanned) -> fst run = db)
    /\ (forall scanned, snd run = Mismatch scanned ->
          scanned = toUpperCase (trim tag)
          /\ exists expected, expectedCaretagId sp = Some expected /\ scanned <> expected).
Proof.
  intros db user sp processing tag rp pu su now db_now. simpl.
  split; [intros ->; reflexivity|]. split.
  - intros O.
    destruct (processScannedId_run db user sp processing tag rp pu su now db_now)
      as [[E _] | [dbx [p [_ E]]]]; simpl in *; [exact E|].
    rewrite E, start_and_navigate_eq in O. simpl in O.
    destruct (snd (startSession dbx user p now db_now su)); simpl in O;
      destruct O as [O | [x O]]; discriminate O.
  - intros scanned. unfold processScannedId.
    destruct processing; [discriminate|].
    assert (R : forall x, snd (resolve_tag db user (toUpperCase (trim tag)) rp pu su
                                 now db_now) <> Mismatch x).
    { intros x. unfold resolve_tag.
      destruct (find_patient db (toUpperCase (trim tag))) as [[ex|]|e]; simpl.
      - rewrite start_and_navigate_eq. simpl.
        destruct (snd (startSession db user (pat_id ex) now db_now su)); discriminate.
      - destruct (insert_patient db pu (set_caretag_id rp (toUpperCase (trim tag))))
          as [db1 [np|e]]; simpl; [|discriminate].
        rewrite start_and_navigate_eq. simpl.
        destruct (snd (startSession db1 user (pat_id np) now db_now su)); discriminate.
      - discriminate. }
    destruct (expectedCaretagId sp) as [expected|]; [|intros O; destruct (R _ O)].
    destruct (String.eqb (toUpperCase (trim tag)) expected) eqn:E; simpl.
    + destruct (expectedPatientId sp) as [pid|]; [|intros O; destruct (R _ O)].
      rewrite start_and_navigate_eq. simpl.
      destruct (snd (startSession db user pid now db_now su)); discriminate.
    + intros O. injection O as <-. split; [reflexivity|].
      exists expected. split; [reflexivity|]. apply String.eqb_neq. exact E.
Qed.

Lemma scan_rejected_changes_nothing_witness :
  fst (processScannedId clinic1 (Some "dr-a") expecting_tag false " ct-2026-0002 "
         (some_patient_data "CT-2026-7777") "pat-3" "ses-1" 10 10) = clinic1.
Proof.
  destruct (scan_rejected_changes_nothing clinic1 (Some "dr-a") expecting_tag false
              " ct-2026-0002 " (some_patient_data "CT-2026-7777") "pat-3" "ses-1" 10 10)
    as [_ [H _]].
  apply H. right. exists "CT-2026-0002". reflexivity.
Defined.


(** X21. What remains of a scan of an unknown tag (no expected tag, no scan in
    progress, new patient key): the patient row with the normalized tag
    is stored whether or not the session can be started. When
    [startSession] is rejected the scan ends in the [catch] block and the
    patient row stays. *)
Theorem unknown_tag_registers_patient :
  forall db user sp tag randomPatient patient_uuid session_uuid now db_now,
    expectedCaretagId sp = None ->
    find_patient db (toUpperCase (trim tag)) = Ok None ->
    existsb (fun q => String.eqb (pat_id q) patient_uuid) (patients db) = false ->
    let registered := mkPatient patient_uuid
                        (set_caretag_id randomPatient (toUpperCase (trim tag))) in
    let db1 := with_patients db (patients db ++ [registered]) in
    let run := processScannedId db user sp false tag randomPatient
                 patient_uuid session_uuid now db_now in
    patients (fst run) = patients db ++ [registered]
    /\ (snd run = Navigated patient_uuid \/ snd run = Failed)
    /\ (forall e,
          snd (startSession db1 user patient_uuid now db_now session_uuid) = Err e ->
          snd run = Failed).
Proof.
  intros db user sp tag rp pu su now db_now Hexp Hf Hk. cbv zeta.
  unfold processScannedId. rewrite Hexp. unfold resolve_tag. rewrite Hf.
  unfold insert_patient. rewrite Hk. simpl. rewrite start_and_navigate_eq. simpl.
  set (db1 := with_patients db
                (patients db ++ [mkPatient pu (set_caretag_id rp (toUpperCase (trim tag)))])).
  split; [|split].
  - destruct (startSession_frame db1 user pu now db_now su) as [_ [Hp _]].
    rewrite Hp. reflexivity.
  - destruct (snd (startSession db1 user pu now db_now su)); simpl; auto.
  - intros e ->. reflexivity.
Qed.

Lemma unknown_tag_registers_patient_witness :
  snd (processScannedId clinic1 (Some "root") no_expectation false "ct-2026-0009"
         (some_patient_data "CT-2026-7777") "pat-3" "ses-1" 10 10) = Failed
  /\ map pat_id
       (patients (fst (processScannedId clinic1 (Some "root") no_expectation false
                         "ct-2026-0009" (some_patient_data "CT-2026-7777")
                         "pat-3" "ses-1" 10 10)))
     = ["pat-1"; "pat-2"; "pat-3"].
Proof.
  destruct (unknown_tag_registers_patient clinic1 (Some "root") no_expectation
              "ct-2026-0009" (some_patient_data "CT-2026-7777") "pat-3" "ses-1" 10 10
              eq_refl eq_refl eq_refl) as [H1 [_ H3]].
  split; [apply (H3 RlsViolation); reflexivity|]. rewrite H1. reflexivity.
Defined.








(** X24. The lookup page and the scanner dialog resolve a tag like the scan
    page does, but only read: a patient they find is the one the scan
    page opens (its stored tag is the normalized string), a tag they do
    not find is one no stored patient carries, and when the lookup fails
    because several patients carry the tag, the scan page fails too and
    changes nothing. The dialog skips a blank input. *)
Theorem searchPatient_agrees_with_scan :
  forall db tag,
    (forall p, searchPatient db tag = SearchFound p ->
       In p (patients db) /\ caretag_id (pat_data p) = toUpperCase (trim tag)
       /\ forall user rp pu su now db_now,
            processScannedId_direct db user false tag rp pu su now db_now
            = start_and_navigate db user (pat_id p) now db_now su)
    /\ (searchPatient db tag = SearchNotFound ->
        forall q, In q (patients db) -> caretag_id (pat_data q) <> toUpperCase (trim tag))
    /\ (searchPatient db tag = SearchFailed ->
        forall user rp pu su now db_now,
          processScannedId_direct db user false tag rp pu su now db_now = (db, Failed))
    /\ (trim tag = EmptyString -> dialog_searchPatient db tag = SearchSkipped)
    /\ (trim tag <> EmptyString -> dialog_searchPatient db tag = searchPatient db tag).
Proof.
  intros db tag. unfold dialog_searchPatient, searchPatient, processScannedId_direct,
    resolve_tag.
  destruct (find_patient db (toUpperCase (trim tag))) as [[ex|]|e] eqn:F.
  - split; [|split; [discriminate|split; [discriminate|]]].
    + intros p H. injection H as <-.
      destruct (find_patient_found _ _ _ F) as [Hin Ht]. auto.
    + split; [intros ->; reflexivity|].
      intros H. apply String.eqb_neq in H. rewrite H. reflexivity.
  - split; [discriminate|split; [|split; [discriminate|]]].
    + intros _. exact (find_patient_none db _ F).
    + split; [intros ->; reflexivity|].
      intros H. apply String.eqb_neq in H. rewrite H. reflexivity.
  - split; [discriminate|split; [discriminate|split]].
    + reflexivity.
    + split; [intros ->; reflexivity|].
      intros H. apply String.eqb_neq in H. rewrite H. reflexivity.
Qed.

Lemma searchPatient_agrees_with_scan_witness :
  In (mkPatient "pat-2" (some_patient_data "CT-2026-0002")) (patients clinic1)
  /\ dialog_searchPatient clinic1 " " = SearchSkipped.
Proof.
  destruct (searchPatient_agrees_with_scan clinic1 " ct-2026-0002") as [H _].
  destruct (searchPatient_agrees_with_scan clinic1 " ") as [_ [_ [_ [K _]]]].
  split; [|apply K; reflexivity].
  apply (H (mkPatient "pat-2" (some_patient_data "CT-2026-0002"))). reflexivity.
Defined.

(** ** The keyboard reader *)

Lemma is_tag_char_not_white c : is_tag_char c = true -> is_white_space c = false.
Proof.
  destruct c as [[] [] [] [] [] [] [] []]; vm_compute; intros H;
    try reflexivity; discriminate H.
Qed.

Lemma all_tag_chars_app a b :
  all_tag_chars (a ++ b)%string = all_tag_chars a && all_tag_chars b.
Proof.
  induction a as [|c a IH]; simpl; [reflexivity|].
  rewrite IH, andb_assoc. reflexivity.
Qed.

Lemma is_tag_key_chars key :
  is_tag_key key = true -> all_tag_chars key = true /\ key <> EmptyString.
Proof.
  destruct key as [|c [|c' rest]]; simpl; try discriminate.
  intros ->. split; [reflexivity | discriminate].
Qed.

Lemma is_tag_key_not_enter key : is_tag_key key = true -> String.eqb key "Enter" = false.
Proof.
  destruct key as [|c [|c' rest]]; simpl; try discriminate.
  intros _. destruct (Ascii.eqb c "E"); reflexivity.
Qed.

Lemma trimEnd_tag_chars s : all_tag_chars s = true -> trimEnd s = s.
Proof.
  induction s as [|c s IH]; simpl; [reflexivity|].
  intros H. apply andb_true_iff in H. destruct H as [Hc Hs].
  rewrite (IH Hs). destruct s; [|reflexivity].
  rewrite (is_tag_char_not_white c Hc). reflexivity.
Qed.

(** A string of tag characters has nothing to trim. *)
Lemma trim_tag_chars s : all_tag_chars s = true -> trim s = s.
Proof.
  intros H. unfold trim.
  assert (S : trimStart s = s).
  { destruct s as [|c s]; [reflexivity|]. simpl in *.
    apply andb_true_iff in H. destruct H as [Hc _].
    rewrite (is_tag_char_not_white c Hc). reflexivity. }
  rewrite S. apply trimEnd_tag_chars. exact H.
Qed.

Lemma string_app_assoc (a b c : string) : ((a ++ b) ++ c = a ++ (b ++ c))%string.
Proof. induction a as [|x a IH]; simpl; [reflexivity|]. rewrite IH. reflexivity. Qed.

Lemma string_app_nil_r (a : string) : (a ++ "")%string = a.
Proof. induction a as [|x a IH]; simpl; [reflexivity|]. rewrite IH. reflexivity. Qed.

Lemma string_app_empty (a b : string) : (a ++ b)%string = EmptyString -> b = EmptyString.
Proof. destruct a; simpl; [auto | discriminate]. Qed.

Lemma rfid_step_clean buffer e :
  all_tag_chars buffer = true ->
  all_tag_chars (fst (rfid_step buffer e)) = true
  /\ forall scannedId, snd (rfid_step buffer e) = Some scannedId ->
       scannedId = buffer /\ scannedId <> EmptyString.
Proof.
  intros H. destruct e as [ignoring key|]; simpl.
  - unfold handleKeyDown. destruct ignoring; simpl; [split; [exact H | discriminate]|].
    destruct (String.eqb key "Enter" && negb (String.eqb buffer "")) eqn:E; simpl.
    + split; [reflexivity|]. rewrite (trim_tag_chars _ H).
      apply andb_true_iff in E. destruct E as [_ E].
      destruct (String.eqb buffer "") eqn:B; [discriminate E|].
      intros scannedId K. injection K as <-. split; [reflexivity|].
      apply String.eqb_neq. exact B.
    + destruct (is_tag_key key) eqn:K; simpl; [|split; [exact H | discriminate]].
      split; [|discriminate]. rewrite all_tag_chars_app, H.
      apply (is_tag_key_chars key K).
  - split; [reflexivity | discriminate].
Qed.

Lemma rfid_run_cons buffer e rest :
  rfid_run buffer (e :: rest)
  = (fst (rfid_run (fst (rfid_step buffer e)) rest),
     match snd (rfid_step buffer e) with
     | Some scannedId => scannedId :: snd (rfid_run (fst (rfid_step buffer e)) rest)
     | None => snd (rfid_run (fst (rfid_step buffer e)) rest)
     end).
Proof.
  simpl. destruct (rfid_step buffer e) as [b1 out]. simpl.
  destruct (rfid_run b1 rest) as [b2 outs]. reflexivity.
Qed.

Lemma rfid_run_clean events :
  forall buffer,
    all_tag_chars buffer = true ->
    all_tag_chars (fst (rfid_run buffer events)) = true
    /\ forall scannedId, In scannedId (snd (rfid_run buffer events)) ->
         scannedId <> EmptyString /\ all_tag_chars scannedId = true.
Proof.
  induction events as [|e rest IH]; intros buffer H.
  - simpl. split; [exact H | intros x []].
  - rewrite rfid_run_cons. simpl.
    destruct (rfid_step_clean buffer e H) as [H1 H2].
    destruct (IH _ H1) as [I1 I2].
    split; [exact I1|].
    intros x Hx. destruct (snd (rfid_step buffer e)) as [y|]; [|apply I2; exact Hx].
    destruct Hx as [<- | Hx]; [|apply I2; exact Hx].
    destruct (H2 y eq_refl) as [-> Hne]. auto.
Qed.

(** X25. Whatever keys arrive and whenever the timer callback runs, the
    keyboard reader hands over only non-empty identifiers made of
    letters, digits and dashes; such an identifier has nothing to trim,
    so the tag that is looked up is its upper-case form. *)
Theorem rfid_reader_hands_over_tag_strings :
  forall events scannedId,
    In scannedId (snd (rfid_run EmptyString events)) ->
    scannedId <> EmptyString
    /\ all_tag_chars scannedId = true
    /\ trim scannedId = scannedId
    /\ toUpperCase (trim scannedId) = toUpperCase scannedId.
Proof.
  intros events x Hx.
  destruct (rfid_run_clean events EmptyString eq_refl) as [_ H].
  destruct (H x Hx) as [Hne Hc].
  pose proof (trim_tag_chars x Hc) as T. rewrite T. auto.
Qed.

Lemma rfid_reader_hands_over_tag_strings_witness :
  snd (rfid_run EmptyString
         [KeyDown false "c"; KeyDown false " "; KeyDown false "t"; KeyDown false "Shift";
          KeyDown false "-"; KeyDown false "7"; KeyDown false "Enter"]) = ["ct-7"]
  /\ trim "ct-7" = "ct-7".
Proof.
  split; [reflexivity|].
  apply (rfid_reader_hands_over_tag_strings
           [KeyDown false "c"; KeyDown false " "; KeyDown false "t"; KeyDown false "Shift";
            KeyDown false "-"; KeyDown false "7"; KeyDown false "Enter"] "ct-7").
  left. reflexivity.
Defined.

Lemma rfid_run_app es1 :
  forall buffer es2,
    rfid_run buffer (es1 ++ es2)
    = (fst (rfid_run (fst (rfid_run buffer es1)) es2),
       snd (rfid_run buffer es1) ++ snd (rfid_run (fst (rfid_run buffer es1)) es2)).
Proof.
  induction es1 as [|e rest IH]; intros buffer es2.
  - simpl. destruct (rfid_run buffer es2); reflexivity.
  - change ((e :: rest) ++ es2) with (e :: (rest ++ es2)).
    rewrite !rfid_run_cons, IH. simpl.
    destruct (snd (rfid_step buffer e)); reflexivity.
Qed.

Lemma rfid_run_keys keys :
  forall buffer,
    forallb is_tag_key keys = true ->
    rfid_run buffer (map (KeyDown false) keys)
    = ((buffer ++ concat_keys keys)%string, []).
Proof.
  induction keys as [|k rest IH]; intros buffer H.
  - simpl. rewrite string_app_nil_r. reflexivity.
  - simpl in H. apply andb_true_iff in H. destruct H as [Hk Hr].
    change (map (KeyDown false) (k :: rest))
      with (KeyDown false k :: map (KeyDown false) rest).
    rewrite rfid_run_cons. simpl. unfold handleKeyDown.
    rewrite (is_tag_key_not_enter k Hk), Hk. simpl.
    rewrite (IH _ Hr). simpl. rewrite string_app_assoc. reflexivity.
Qed.

Lemma rfid_run_ignored events :
  forall buffer,
    (forall e, In e events -> exists key, e = KeyDown true key) ->
    rfid_run buffer events = (buffer, []).
Proof.
  induction events as [|e rest IH]; intros buffer H; [reflexivity|].
  rewrite rfid_run_cons.
  destruct (H e (or_introl eq_refl)) as [key ->]. simpl.
  rewrite (IH buffer); [reflexivity|]. intros e' He'. apply H. right. exact He'.
Qed.

Lemma concat_keys_nonempty keys :
  keys <> [] -> forallb is_tag_key keys = true ->
  concat_keys keys <> EmptyString /\ all_tag_chars (concat_keys keys) = true.
Proof.
  intros Hne H. split.
  - destruct keys as [|k rest]; [contradiction|]. simpl in *.
    apply andb_true_iff in H. destruct H as [Hk _].
    destruct k; [discriminate Hk | discriminate].
  - clear Hne. induction keys as [|k rest IH]; [reflexivity|]. simpl in *.
    apply andb_true_iff in H. destruct H as [Hk Hr].
    rewrite all_tag_chars_app, (IH Hr).
    rewrite (proj1 (is_tag_key_chars k Hk)). reflexivity.
Qed.

Lemma rfid_enter buffer :
  all_tag_chars buffer = true -> buffer <> EmptyString ->
  rfid_run buffer [KeyDown false "Enter"] = (EmptyString, [buffer]).
Proof.
  intros Hc Hne. simpl. unfold handleKeyDown. simpl.
  apply String.eqb_neq in Hne. rewrite Hne. simpl.
  rewrite (trim_tag_chars _ Hc), Hne. reflexivity.
Qed.

(** X26. A reader that types the characters of a tag and then Enter, starting
    on an empty buffer, hands over exactly the typed string and leaves
    the buffer empty. Enter on an empty buffer hands over nothing. Keys
    that arrive while the page is in manual mode or processing a scan are
    neither buffered nor handed over. *)
Theorem rfid_typed_tag_is_handed_over :
  forall keys,
    keys <> [] ->
    forallb is_tag_key keys = true ->
    rfid_run EmptyString (map (KeyDown false) keys ++ [KeyDown false "Enter"])
    = (EmptyString, [concat_keys keys])
    /\ rfid_run EmptyString [KeyDown false "Enter"] = (EmptyString, [])
    /\ (forall buffer anykeys,
          rfid_run buffer (map (KeyDown true) anykeys) = (buffer, [])).
Proof.
  intros keys Hne H.
  destruct (concat_keys_nonempty keys Hne H) as [Cn Cc].
  split; [|split; [reflexivity|]].
  - rewrite rfid_run_app, (rfid_run_keys keys EmptyString H). cbn [fst snd].
    change ("" ++ concat_keys keys)%string with (concat_keys keys).
    rewrite (rfid_enter (concat_keys keys) Cc Cn). reflexivity.
  - intros buffer anykeys. apply rfid_run_ignored.
    intros e He. apply in_map_iff in He. destruct He as [key [<- _]]. eauto.
Qed.

Lemma rfid_typed_tag_is_handed_over_witness :
  rfid_run EmptyString (map (KeyDown false) ["c"; "t"; "-"; "7"] ++ [KeyDown false "Enter"])
  = (EmptyString, ["ct-7"]).
Proof.
  assert (N : ["c"; "t"; "-"; "7"] <> @nil string) by discriminate.
  destruct (rfid_typed_tag_is_handed_over ["c"; "t"; "-"; "7"] N eq_refl) as [H _].
  exact H.
Defined.

(** ** Callers without a signed-in user *)

Lemma has_active_session_None db now p : has_active_session db now None p = false.
Proof.
  unfold has_active_session.
  induction (access_sessions db) as [|x l IH]; simpl; [reflexivity | exact IH].
Qed.

(** X16. With nobody signed in ([auth.uid()] is null, the hook has no user)
    every gate is closed: no sensitive row is readable or writable, no
    session is started or ended, no role is changed, the session queries
    come back empty, and a scan never navigates to a patient. *)
Theorem unauthenticated_caller_is_denied :
  forall db,
    (forall t now r, select_policy t db now None r = false)
    /\ (forall w now r, policy_expression w db now None r = false
                        /\ write_allowed w db now None r = false)
    /\ (forall p now db_now new_uuid,
          startSession db None p now db_now new_uuid = (db, Err NotAuthenticated))
    /\ (forall sessionId notes_arg now,
          endSession db None sessionId notes_arg now = (db, Ok tt))
    /\ (forall target now,
          promote_to_admin db None target now
          = (db, Err (RaiseException msg_promote_forbidden))
          /\ demote_from_admin db None target now
             = (db, Err (RaiseException msg_demote_forbidden)))
    /\ (forall p, activeSessionQuery db None p = Ok None)
    /\ useActiveSessions db None = []
    /\ (forall sp processing tag rp pu su now db_now patientId,
          snd (processScannedId db None sp processing tag rp pu su now db_now)
          <> Navigated patientId).
Proof.
  intros db.
  split; [|split; [|split; [|split; [|split; [|split; [|split]]]]]].
  - intros t now r. destruct t; simpl; rewrite !has_role_None; reflexivity.
  - intros w now r.
    assert (E : policy_expression w db now None r = false)
      by (destruct w; simpl;
          rewrite ?has_role_None, ?has_active_session_None, ?andb_false_r; reflexivity).
    split; [exact E|]. unfold write_allowed. rewrite E. reflexivity.
  - reflexivity.
  - intros sid n now. unfold endSession.
    assert (M : map (end_if_id None sid n now) (access_sessions db) = access_sessions db).
    { rewrite <- (map_id (access_sessions db)) at 2. apply map_ext. reflexivity. }
    rewrite M, with_sessions_same. reflexivity.
  - intros target now. unfold promote_to_admin, demote_from_admin.
    rewrite has_role_None. auto.
  - intros p. unfold activeSessionQuery. simpl. rewrite orb_true_r. reflexivity.
  - reflexivity.
  - intros sp processing tag rp pu su now db_now pid H.
    destruct (processScannedId_run db None sp processing tag rp pu su now db_now)
      as [[_ O] | [dbx [p [_ E]]]]; simpl in *.
    + rewrite H in O. destruct O as [O | [O | [x O]]]; discriminate O.
    + rewrite E in H. discriminate H.
Qed.

(** * The demo scan *)

Lemma toUpperCase_app a b :
  toUpperCase (a ++ b)%string = (toUpperCase a ++ toUpperCase b)%string.
Proof. induction a as [|c a IH]; simpl; [reflexivity|]. rewrite IH. reflexivity. Qed.

Lemma string_of_uint_tag_chars d :
  all_tag_chars (DecimalString.NilEmpty.string_of_uint d) = true
  /\ toUpperCase (DecimalString.NilEmpty.string_of_uint d)
     = DecimalString.NilEmpty.string_of_uint d.
Proof.
  induction d as [|d [IH1 IH2]|d [IH1 IH2]|d [IH1 IH2]|d [IH1 IH2]|d [IH1 IH2]
                 |d [IH1 IH2]|d [IH1 IH2]|d [IH1 IH2]|d [IH1 IH2]|d [IH1 IH2]];
    simpl; [split; reflexivity|..]; rewrite IH1, IH2; split; reflexivity.
Qed.

Lemma four_digits :
  forallb (fun roll => Nat.eqb (String.length (string_of_N (N.of_nat roll + 1000))) 4)
    (seq 0 (N.to_nat 9000)) = true.
Proof. vm_compute. reflexivity. Qed.

(** X27. A generated tag identifier is made of tag characters only and is
    already in normalized form, so scanning or typing it looks up the
    very string that was stored; its number has four digits. *)
Theorem generateCareTagId_is_normalized :
  forall year roll,
    all_tag_chars (generateCareTagId year roll) = true
    /\ toUpperCase (trim (generateCareTagId year roll)) = generateCareTagId year roll
    /\ ((roll < 9000)%N -> String.length (string_of_N (roll + 1000)) = 4%nat).
Proof.
  intros year roll.
  assert (C : all_tag_chars (generateCareTagId year roll) = true).
  { unfold generateCareTagId, string_of_N.
    rewrite !all_tag_chars_app.
    rewrite (proj1 (string_of_uint_tag_chars (N.to_uint year))).
    rewrite (proj1 (string_of_uint_tag_chars (N.to_uint (roll + 1000)))).
    reflexivity. }
  split; [exact C|]. split.
  - rewrite (trim_tag_chars _ C). unfold generateCareTagId, string_of_N.
    rewrite !toUpperCase_app.
    rewrite (proj2 (string_of_uint_tag_chars (N.to_uint year))).
    rewrite (proj2 (string_of_uint_tag_chars (N.to_uint (roll + 1000)))).
    reflexivity.
  - intros H. pose proof four_digits as F. rewrite forallb_forall in F.
    apply Nat.eqb_eq. rewrite <- (Nnat.N2Nat.id roll). apply (F (N.to_nat roll)).
    apply in_seq. lia.
Qed.

Lemma generateCareTagId_is_normalized_witness :
  generateCareTagId 2026 234 = "CT-2026-1234"
  /\ String.length (string_of_N (234 + 1000)) = 4%nat.
Proof.
  split; [reflexivity|].
  destruct (generateCareTagId_is_normalized 2026 234) as [_ [_ H]].
  apply H. lia.
Defined.


